(** * Pomodian: the countdown engine and the plugin that drives it

    A shallow embedding of [PomoTimer.ts] (the countdown engine) and of the
    acknowledgment-based revision of the plugin's [main.ts]
    ([PomodoroPlugin]), followed by the properties the specification states
    about them.

    Conventions of the embedding.
    - A TypeScript [number] holding seconds, minutes or a counter is a [Z]
      (the settings tab's sliders only produce integers).
    - An object with mutable fields is a record, and a method is a
      computation in a state monad over the whole system, so the body of
      every method reads statement by statement like its source.
    - The host ([window]) is explicit: the live [setInterval] handles and
      the callbacks scheduled with [setTimeout] and not yet run.  The model
      fixes no clock: the host may run any live interval or any pending
      timeout at any moment, which covers every real schedule. *)

From Stdlib Require Import ZArith List String Bool Lia.
From Stdlib Require Import Ascii.
From Stdlib Require DecimalString DecimalZ DecimalPos.
From ExtLib Require Import Structures.Monad Structures.MonadState.
From ExtLib Require Import Data.Monads.StateMonad.
Import ListNotations.
Import MonadNotation.

Local Open Scope Z_scope.
Local Open Scope monad_scope.

(** ** Data declared in [PomoTimer.ts] *)

(** [export enum TimerState]: modes and execution status in one enum. *)
Inductive TimerState : Type :=
| Work
| ShortBreak
| LongBreak
| Paused
| Idle.

(** [===] on two enum values. *)
Definition TimerState_eqb (a b : TimerState) : bool :=
  match a, b with
  | Work, Work | ShortBreak, ShortBreak | LongBreak, LongBreak
  | Paused, Paused | Idle, Idle => true
  | _, _ => false
  end.

(** The three values of the enum that name an interval kind. *)
Definition isMode (s : TimerState) : bool :=
  match s with
  | Work | ShortBreak | LongBreak => true
  | Paused | Idle => false
  end.

Record Session : Type := {
  date : string;
  type : TimerState;
  duration : Z
}.

Record Task : Type := {
  text : string;
  completed : bool
}.

Record PomodoroSettings : Type := {
  workTime : Z;
  shortBreakTime : Z;
  longBreakTime : Z;
  longBreakInterval : Z;
  autoStartBreaks : bool;
  autoStartPomodoros : bool;
  showDesktopNotification : bool;
  playSound : bool;
  showInStatusBar : bool;
  sessions : list Session;
  tasks : list Task
}.

Definition DEFAULT_SETTINGS : PomodoroSettings := {|
  workTime := 25;
  shortBreakTime := 5;
  longBreakTime := 15;
  longBreakInterval := 4;
  autoStartBreaks := false;
  autoStartPomodoros := false;
  showDesktopNotification := true;
  playSound := true;
  showInStatusBar := false;
  sessions := [];
  tasks := []
|}.

(** The configured minutes of a mode, as the [switch] of [start] and
    [getIdleTimeText] pick them. *)
Definition minutesOf (cfg : PomodoroSettings) (m : TimerState) : Z :=
  match m with
  | Work => workTime cfg
  | ShortBreak => shortBreakTime cfg
  | _ => longBreakTime cfg
  end.

(** "Positive configured durations". *)
Definition positiveDurations (cfg : PomodoroSettings) : Prop :=
  0 < workTime cfg /\ 0 < shortBreakTime cfg /\ 0 < longBreakTime cfg.

(** ** The host's interval table *)

(** [window.setInterval] hands out handles, which are positive integers,
    so that the truthiness test [if (this.intervalId)] is [Some _]. *)
Record Window : Type := {
  nextHandle : positive;
  intervals : list positive
}.

Definition freshWindow : Window := {| nextHandle := 1%positive; intervals := [] |}.

(** ** The engine: [class PomoTimer] *)

Module Timer.

Record PomoTimer : Type := {
  state : TimerState;
  prePauseState : TimerState;
  remainingTime : Z;
  totalTime : Z;
  intervalId : option positive;
  settings : PomodoroSettings
}.

(** Field assignments [this.f = v]. *)
Definition with_state (v : TimerState) (t : PomoTimer) : PomoTimer :=
  {| state := v; prePauseState := prePauseState t;
     remainingTime := remainingTime t; totalTime := totalTime t;
     intervalId := intervalId t; settings := settings t |}.

Definition with_prePauseState (v : TimerState) (t : PomoTimer) : PomoTimer :=
  {| state := state t; prePauseState := v;
     remainingTime := remainingTime t; totalTime := totalTime t;
     intervalId := intervalId t; settings := settings t |}.

Definition with_remainingTime (v : Z) (t : PomoTimer) : PomoTimer :=
  {| state := state t; prePauseState := prePauseState t;
     remainingTime := v; totalTime := totalTime t;
     intervalId := intervalId t; settings := settings t |}.

Definition with_totalTime (v : Z) (t : PomoTimer) : PomoTimer :=
  {| state := state t; prePauseState := prePauseState t;
     remainingTime := remainingTime t; totalTime := v;
     intervalId := intervalId t; settings := settings t |}.

Definition with_intervalId (v : option positive) (t : PomoTimer) : PomoTimer :=
  {| state := state t; prePauseState := prePauseState t;
     remainingTime := remainingTime t; totalTime := totalTime t;
     intervalId := v; settings := settings t |}.

Definition with_settings (v : PomodoroSettings) (t : PomoTimer) : PomoTimer :=
  {| state := state t; prePauseState := prePauseState t;
     remainingTime := remainingTime t; totalTime := totalTime t;
     intervalId := intervalId t; settings := v |}.

Section Engine.

(** Whatever the owner of the timer keeps besides it: the callbacks
    handed to the constructor are closures over that state. *)
Context {W : Type}.

(** The system a method runs in: the timer object, the host's interval
    table, and the owner's state. *)
Record Sys : Type := {
  timer : PomoTimer;
  window : Window;
  owner : W
}.

Definition Eff : Type -> Type := StateMonad.state Sys.

(** The three callbacks stored by the constructor. *)
Variable onTick : Z -> Z -> Eff unit.
Variable onStateChange : TimerState -> Eff unit.
Variable onTimerComplete : Eff unit.

Definition readTimer {A} (f : PomoTimer -> A) : Eff A :=
  s <- get ;; ret (f (timer s)).

Definition writeTimer (f : PomoTimer -> PomoTimer) : Eff unit :=
  s <- get ;;
  put {| timer := f (timer s); window := window s; owner := owner s |}.

(** [window.setInterval(callback, 1000)]: every interval of this program
    is registered by [start] with the same callback, so the table only
    keeps the handles. *)
Definition setInterval : Eff positive :=
  s <- get ;;
  let h := nextHandle (window s) in
  put {| timer := timer s;
         window := {| nextHandle := Pos.succ h;
                      intervals := h :: intervals (window s) |};
         owner := owner s |} ;;
  ret h.

Definition clearInterval (h : positive) : Eff unit :=
  s <- get ;;
  put {| timer := timer s;
         window := {| nextHandle := nextHandle (window s);
                      intervals := remove Pos.eq_dec h (intervals (window s)) |};
         owner := owner s |}.

(** The constructor: field initialisers, then the arguments. *)
Definition new (cfg : PomodoroSettings) : PomoTimer :=
  {| state := Idle; prePauseState := Idle;
     remainingTime := 0; totalTime := 0;
     intervalId := None; settings := cfg |}.

Definition updateSettings (cfg : PomodoroSettings) : Eff unit :=
  writeTimer (with_settings cfg).

Definition getState : Eff TimerState := readTimer state.
Definition getRemainingTime : Eff Z := readTimer remainingTime.
Definition getTotalTime : Eff Z := readTimer totalTime.

Definition isRunning : Eff bool :=
  s <- readTimer state ;;
  ret (negb (TimerState_eqb s Idle) && negb (TimerState_eqb s Paused)).

Definition stop : Eff unit :=
  id <- readTimer intervalId ;;
  match id with
  | Some h => clearInterval h ;; writeTimer (with_intervalId None)
  | None => ret tt
  end ;;
  writeTimer (with_state Idle) ;;
  writeTimer (with_remainingTime 0) ;;
  writeTimer (with_totalTime 0) ;;
  r <- readTimer remainingTime ;;
  t <- readTimer totalTime ;;
  onTick r t.

(** The closure passed to [setInterval] in [start]. *)
Definition intervalCallback : Eff unit :=
  r <- readTimer remainingTime ;;
  writeTimer (with_remainingTime (r - 1)) ;;
  r <- readTimer remainingTime ;;
  t <- readTimer totalTime ;;
  onTick r t ;;
  r <- readTimer remainingTime ;;
  if r <=? 0 then
    completedState <- readTimer state ;;
    stop ;;
    onTimerComplete ;;
    onStateChange completedState
  else ret tt.

Definition start (st : TimerState) : Eff unit :=
  if TimerState_eqb st Idle || TimerState_eqb st Paused then ret tt
  else
    writeTimer (with_state st) ;;
    r <- readTimer remainingTime ;;
    (if r =? 0 then
       s <- readTimer state ;;
       cfg <- readTimer settings ;;
       match s with
       | Work => writeTimer (with_remainingTime (workTime cfg * 60))
       | ShortBreak => writeTimer (with_remainingTime (shortBreakTime cfg * 60))
       | LongBreak => writeTimer (with_remainingTime (longBreakTime cfg * 60))
       | _ => ret tt
       end ;;
       r' <- readTimer remainingTime ;;
       writeTimer (with_totalTime r')
     else ret tt) ;;
    id <- readTimer intervalId ;;
    match id with
    | Some h => clearInterval h
    | None => ret tt
    end ;;
    h <- setInterval ;;
    writeTimer (with_intervalId (Some h)) ;;
    r <- readTimer remainingTime ;;
    t <- readTimer totalTime ;;
    onTick r t.

Definition pause : Eff unit :=
  id <- readTimer intervalId ;;
  s <- readTimer state ;;
  match id with
  | Some h =>
      if negb (TimerState_eqb s Idle) && negb (TimerState_eqb s Paused) then
        clearInterval h ;;
        writeTimer (with_intervalId None) ;;
        s <- readTimer state ;;
        writeTimer (with_prePauseState s) ;;
        writeTimer (with_state Paused) ;;
        r <- readTimer remainingTime ;;
        t <- readTimer totalTime ;;
        onTick r t
      else ret tt
  | None => ret tt
  end.

Definition resume : Eff unit :=
  s <- readTimer state ;;
  if TimerState_eqb s Paused then
    p <- readTimer prePauseState ;;
    start p
  else ret tt.

Definition reset : Eff unit :=
  stop ;;
  onTick 0 0.

(** The host runs the callback of interval [h]; a handle that was
    cleared (or never handed out) has no callback to run. *)
Definition fire (h : positive) : Eff unit :=
  s <- get ;;
  if existsb (Pos.eqb h) (intervals (window s)) then intervalCallback
  else ret tt.

End Engine.

Arguments Sys : clear implicits.
Arguments Eff : clear implicits.

(** The timer as [stop] leaves it. *)
Definition halted (t : PomoTimer) : PomoTimer :=
  {| state := Idle; prePauseState := prePauseState t;
     remainingTime := 0; totalTime := 0; intervalId := None;
     settings := settings t |}.

(** The host's table once the timer's own interval is cleared. *)
Definition clearedOf (t : PomoTimer) (w : Window) : Window :=
  match intervalId t with
  | Some h => {| nextHandle := nextHandle w;
                 intervals := remove Pos.eq_dec h (intervals w) |}
  | None => w
  end.

End Timer.

(** ** The engine observed through its callbacks

    To state what the engine tells its owner, the three callbacks are
    instantiated with closures that append the call and its arguments to a
    log, and do nothing else. *)

Module Recorded.

Import Timer.

Inductive Notification : Type :=
| OnTick (remaining total : Z)
| OnStateChange (s : TimerState)
| OnTimerComplete.

Definition Engine : Type := Sys (list Notification).

Definition emit (n : Notification) : Eff (list Notification) unit :=
  s <- get ;;
  put {| timer := timer s; window := window s; owner := owner s ++ [n] |}.

Definition onTick (r t : Z) := emit (OnTick r t).
Definition onStateChange (s : TimerState) := emit (OnStateChange s).
Definition onTimerComplete := emit OnTimerComplete.

(** [new PomoTimer(cfg, onTick, onStateChange, onTimerComplete)] in a
    fresh window. *)
Definition boot (cfg : PomodoroSettings) : Engine :=
  {| timer := new cfg; window := freshWindow; owner := [] |}.

(** What the surroundings can do to the engine: call a public method, or
    (the host) run the callback of an interval.  The owner assigning to a
    field of the settings object it shares with the timer is an
    [UpdateSettings] with the object as it then stands. *)
Inductive Command : Type :=
| Start (st : TimerState)
| Pause
| Resume
| Stop
| Reset
| UpdateSettings (cfg : PomodoroSettings)
| Fire (h : positive).

Definition perform (c : Command) : Eff (list Notification) unit :=
  match c with
  | Start st => start onTick st
  | Pause => pause onTick
  | Resume => resume onTick
  | Stop => stop onTick
  | Reset => reset onTick
  | UpdateSettings cfg => updateSettings cfg
  | Fire h => fire onTick onStateChange onTimerComplete h
  end.

Definition exec (c : Command) (e : Engine) : Engine := execState (perform c) e.

Definition execAll (cs : list Command) (e : Engine) : Engine :=
  fold_left (fun e c => exec c e) cs e.

(** The notifications a command emits: what it appends to the log. *)
Definition emitted (c : Command) (e : Engine) : list Notification :=
  skipn (List.length (owner e)) (owner (exec c e)).

(** A command whose configuration, if it brings one, satisfies [P]. *)
Definition admissible (P : PomodoroSettings -> Prop) (c : Command) : Prop :=
  match c with
  | UpdateSettings cfg => P cfg
  | _ => True
  end.

(** States the engine can be in: those reached from a freshly built
    timer by commands, every configuration handed to it satisfying [P]. *)
Inductive Reachable (P : PomodoroSettings -> Prop) : Engine -> Prop :=
| reach_boot cfg : P cfg -> Reachable P (boot cfg)
| reach_exec e c : Reachable P e -> admissible P c -> Reachable P (exec c e).

Definition anySettings (cfg : PomodoroSettings) : Prop := True.

(** What a notification carries for a Session record. *)
Definition carriedMode (n : Notification) : option TimerState :=
  match n with
  | OnStateChange s => Some s
  | _ => None
  end.

Definition carriedTotal (n : Notification) : option Z :=
  match n with
  | OnTick _ total => Some total
  | _ => None
  end.

Definition isCompletion (n : Notification) : bool :=
  match n with
  | OnTimerComplete => true
  | _ => false
  end.

End Recorded.

(** ** The engine as its completion callback sees it

    [onTimerComplete] is called without arguments: what the callback wants
    to know about the interval that ended it has to ask the timer's getters
    for.  This owner's callback does, and keeps the answers. *)

Module Probed.

Import Timer.

Record Seen : Type := {
  seenState : TimerState;
  seenRemaining : Z;
  seenTotal : Z
}.

Definition onTick (r t : Z) : Eff (list Seen) unit := ret tt.
Definition onStateChange (s : TimerState) : Eff (list Seen) unit := ret tt.

Definition onTimerComplete : Eff (list Seen) unit :=
  st <- getState ;;
  r <- getRemainingTime ;;
  t <- getTotalTime ;;
  s <- get ;;
  put {| timer := timer s; window := window s;
         owner := owner s ++ [{| seenState := st; seenRemaining := r;
                                 seenTotal := t |}] |}.

Definition boot (cfg : PomodoroSettings) : Sys (list Seen) :=
  {| timer := new cfg; window := freshWindow; owner := [] |}.

Fixpoint ticks (h : positive) (n : nat) : Eff (list Seen) unit :=
  match n with
  | O => ret tt
  | S k => fire onTick onStateChange onTimerComplete h ;; ticks h k
  end.

(** [start(st)] and then [n] runs of the interval callback. *)
Definition countdown (cfg : PomodoroSettings) (st : TimerState) (n : nat)
  : Sys (list Seen) :=
  execState (start onTick st ;; ticks 1%positive n) (boot cfg).

End Probed.

(** ** The plugin: [class PomodoroPlugin] (revision with acknowledgment)

    The plugin owns the timer; its own fields are the [owner] part of the
    system.  [this.settings] and the timer's [settings] are one and the
    same object (the constructor and every [updateSettings] call receive
    [this.settings] itself), so it is stored once, in the timer.  Rendering
    ([updateUI], the pie chart, sounds and desktop notifications) writes
    only to the DOM and the audio device, which are not part of the state;
    notices are kept, since they are what tells a rejection from an
    accepted command. *)

Module Plugin.

Import Timer.

(** The closures handed to [setTimeout] that touch the plugin's fields
    or the timer; those of [refreshHeaderButton] and
    [showDesktopNotification] only render. *)
Inductive Timeout : Type :=
| AutoStartNext   (* in advanceToNextMode, after 1000 ms *)
| AutoDismiss.    (* in onTimerComplete, after 10000 ms *)

Definition Timeout_eqb (a b : Timeout) : bool :=
  match a, b with
  | AutoStartNext, AutoStartNext | AutoDismiss, AutoDismiss => true
  | _, _ => false
  end.

Record Fields : Type := {
  currentMode : TimerState;
  completedPomodoros : Z;
  nextMode : TimerState;
  isSessionComplete : bool;
  isPanelPinned : bool;
  pending : list Timeout;
  notices : list string
}.

Definition with_currentMode (v : TimerState) (p : Fields) : Fields :=
  {| currentMode := v; completedPomodoros := completedPomodoros p;
     nextMode := nextMode p; isSessionComplete := isSessionComplete p;
     isPanelPinned := isPanelPinned p; pending := pending p;
     notices := notices p |}.

Definition with_completedPomodoros (v : Z) (p : Fields) : Fields :=
  {| currentMode := currentMode p; completedPomodoros := v;
     nextMode := nextMode p; isSessionComplete := isSessionComplete p;
     isPanelPinned := isPanelPinned p; pending := pending p;
     notices := notices p |}.

Definition with_nextMode (v : TimerState) (p : Fields) : Fields :=
  {| currentMode := currentMode p; completedPomodoros := completedPomodoros p;
     nextMode := v; isSessionComplete := isSessionComplete p;
     isPanelPinned := isPanelPinned p; pending := pending p;
     notices := notices p |}.

Definition with_isSessionComplete (v : bool) (p : Fields) : Fields :=
  {| currentMode := currentMode p; completedPomodoros := completedPomodoros p;
     nextMode := nextMode p; isSessionComplete := v;
     isPanelPinned := isPanelPinned p; pending := pending p;
     notices := notices p |}.

Definition with_isPanelPinned (v : bool) (p : Fields) : Fields :=
  {| currentMode := currentMode p; completedPomodoros := completedPomodoros p;
     nextMode := nextMode p; isSessionComplete := isSessionComplete p;
     isPanelPinned := v; pending := pending p;
     notices := notices p |}.

Definition with_pending (v : list Timeout) (p : Fields) : Fields :=
  {| currentMode := currentMode p; completedPomodoros := completedPomodoros p;
     nextMode := nextMode p; isSessionComplete := isSessionComplete p;
     isPanelPinned := isPanelPinned p; pending := v;
     notices := notices p |}.

Definition with_notices (v : list string) (p : Fields) : Fields :=
  {| currentMode := currentMode p; completedPomodoros := completedPomodoros p;
     nextMode := nextMode p; isSessionComplete := isSessionComplete p;
     isPanelPinned := isPanelPinned p; pending := pending p;
     notices := v |}.

Definition Plugin : Type := Sys Fields.
Definition Act : Type -> Type := Eff Fields.

Definition readThis {A} (f : Fields -> A) : Act A :=
  s <- get ;; ret (f (owner s)).

Definition writeThis (f : Fields -> Fields) : Act unit :=
  s <- get ;;
  put {| timer := timer s; window := window s; owner := f (owner s) |}.

(** [new Notice(msg)]. *)
Definition Notice (msg : string) : Act unit :=
  l <- readThis notices ;;
  writeThis (with_notices (l ++ [msg])).

(** [setTimeout(k, delay)]; the handle is dropped by every caller. *)
Definition setTimeout (k : Timeout) : Act unit :=
  l <- readThis pending ;;
  writeThis (with_pending (l ++ [k])).

(** [a % b === 0] on integers: [%] keeps the sign of the dividend, and
    [a % 0] is NaN, which is not [=== 0]. *)
Definition remIsZero (a b : Z) : bool :=
  if b =? 0 then false else Z.rem a b =? 0.

Definition modeText (m : TimerState) : string :=
  match m with
  | Work => "Focus"
  | ShortBreak => "Short Break"
  | _ => "Long Break"
  end.

Definition getModeText : Act string :=
  m <- readThis currentMode ;; ret (modeText m).

(** Rendering only. *)
Definition updateUI (remainingTime totalTime : Z) : Act unit := ret tt.

Definition acknowledgeSessionComplete : Act unit :=
  writeThis (with_isSessionComplete false) ;;
  running <- isRunning ;;
  (if negb running then
     n <- readThis nextMode ;;
     writeThis (with_currentMode n)
   else ret tt) ;;
  r <- getRemainingTime ;;
  t <- getTotalTime ;;
  updateUI r t.

Definition advanceToNextMode : Act unit :=
  m <- readThis currentMode ;;
  (if TimerState_eqb m Work then
     c <- readThis completedPomodoros ;;
     writeThis (with_completedPomodoros (c + 1)) ;;
     c <- readThis completedPomodoros ;;
     cfg <- readTimer settings ;;
     if remIsZero c (longBreakInterval cfg) then
       writeThis (with_nextMode LongBreak)
     else
       writeThis (with_nextMode ShortBreak)
   else
     writeThis (with_nextMode Work)) ;;
  m <- readThis currentMode ;;
  cfg <- readTimer settings ;;
  if (TimerState_eqb m Work && autoStartBreaks cfg)
     || (negb (TimerState_eqb m Work) && autoStartPomodoros cfg)
  then setTimeout AutoStartNext
  else ret tt.

(** The callback passed as the constructor's fourth argument. *)
Definition onTimerComplete : Act unit :=
  writeThis (with_isSessionComplete true) ;;
  sessionType <- getModeText ;;
  Notice (sessionType ++ " session completed!") ;;
  advanceToNextMode ;;
  updateUI 0 0 ;;
  setTimeout AutoDismiss.

(** The callback passed as the third argument; its body is empty. *)
Definition onTimerCompletion (s : TimerState) : Act unit := ret tt.

(** The timer's methods, with the callbacks the plugin's [onload] binds. *)
Definition timer_start := start updateUI.
Definition timer_pause := pause updateUI.
Definition timer_resume := resume updateUI.
Definition timer_stop := stop updateUI.
Definition timer_reset := reset updateUI.
Definition timer_fire := fire updateUI onTimerCompletion onTimerComplete.

(** The closure scheduled by [advanceToNextMode]. *)
Definition autoStartCallback : Act unit :=
  awaiting <- readThis isSessionComplete ;;
  if awaiting then
    n <- readThis nextMode ;;
    writeThis (with_currentMode n) ;;
    m <- readThis currentMode ;;
    timer_start m
  else ret tt.

(** The closure scheduled by [onTimerComplete]. *)
Definition autoDismissCallback : Act unit := acknowledgeSessionComplete.

Definition handlePauseResumeClick : Act unit :=
  awaiting <- readThis isSessionComplete ;;
  if awaiting then acknowledgeSessionComplete
  else
    running <- isRunning ;;
    s <- getState ;;
    if running || TimerState_eqb s Paused then
      s <- getState ;;
      if TimerState_eqb s Paused then timer_resume else timer_pause
    else
      m <- readThis currentMode ;;
      timer_start m.

Definition handleResetClick : Act unit :=
  timer_reset ;;
  writeThis (with_isSessionComplete false) ;;
  updateUI 0 0.

Definition handleCycleModeClick : Act unit :=
  s <- getState ;;
  running <- isRunning ;;
  if negb (TimerState_eqb s Idle) || running then
    Notice "Reset the timer to switch modes"
  else
    awaiting <- readThis isSessionComplete ;;
    if awaiting then acknowledgeSessionComplete
    else
      m <- readThis currentMode ;;
      match m with
      | Work => writeThis (with_currentMode ShortBreak)
      | ShortBreak => writeThis (with_currentMode LongBreak)
      | LongBreak => writeThis (with_currentMode Work)
      | _ => ret tt
      end ;;
      t <- getModeText ;;
      Notice ("Switched to " ++ t ++ " mode") ;;
      updateUI 0 0.

(** [pieButton.onclick]. *)
Definition pieButtonClick : Act unit :=
  awaiting <- readThis isSessionComplete ;;
  if awaiting then acknowledgeSessionComplete
  else
    b <- readThis isPanelPinned ;;
    writeThis (with_isPanelPinned (negb b)).

(** What a control of the settings tab assigns to the settings object. *)
Inductive SettingChange : Type :=
| SetWorkTime (v : Z)
| SetShortBreakTime (v : Z)
| SetLongBreakTime (v : Z)
| SetLongBreakInterval (v : Z)
| SetAutoStartBreaks (b : bool)
| SetAutoStartPomodoros (b : bool)
| SetPlaySound (b : bool)
| SetShowDesktopNotification (b : bool).

Definition assign (c : SettingChange) (s : PomodoroSettings) : PomodoroSettings :=
  {| workTime := match c with SetWorkTime v => v | _ => workTime s end;
     shortBreakTime :=
       match c with SetShortBreakTime v => v | _ => shortBreakTime s end;
     longBreakTime :=
       match c with SetLongBreakTime v => v | _ => longBreakTime s end;
     longBreakInterval :=
       match c with SetLongBreakInterval v => v | _ => longBreakInterval s end;
     autoStartBreaks :=
       match c with SetAutoStartBreaks b => b | _ => autoStartBreaks s end;
     autoStartPomodoros :=
       match c with SetAutoStartPomodoros b => b | _ => autoStartPomodoros s end;
     showDesktopNotification :=
       match c with
       | SetShowDesktopNotification b => b
       | _ => showDesktopNotification s
       end;
     playSound := match c with SetPlaySound b => b | _ => playSound s end;
     showInStatusBar := showInStatusBar s;
     sessions := sessions s;
     tasks := tasks s |}.

Definition saveSettings : Act unit :=
  cfg <- readTimer settings ;;
  updateSettings cfg ;;
  updateUI 0 0.

(** [onChange] of a control: assign the field, then [saveSettings]. *)
Definition settingChanged (c : SettingChange) : Act unit :=
  writeTimer (fun t => with_settings (assign c (settings t)) t) ;;
  saveSettings.

(** [removeHeaderButton]: the elements it detaches are rendering; the
    pin is the one field it writes. *)
Definition removeHeaderButton : Act unit :=
  writeThis (with_isPanelPinned false).

(** [refreshHeaderButton], bound to [active-leaf-change] and to
    [onLayoutReady].  The closure it hands to [setTimeout(..., 0)] builds
    the header button and calls [updateUI(0, 0)]: rendering only. *)
Definition refreshHeaderButton : Act unit :=
  removeHeaderButton.

(** [handleDocumentClick]; [outside] is
    [this.containerEl && !this.containerEl.contains(event.target)]. *)
Definition handleDocumentClick (outside : bool) : Act unit :=
  pinned <- readThis isPanelPinned ;;
  if pinned && outside then writeThis (with_isPanelPinned false)
  else ret tt.

Definition onunload : Act unit :=
  removeHeaderButton ;;
  timer_stop.

(** The plugin after [onload] with the loaded settings [cfg]. *)
Definition onload (cfg : PomodoroSettings) : Plugin :=
  {| timer := new cfg;
     window := freshWindow;
     owner := {| currentMode := Work; completedPomodoros := 0;
                 nextMode := ShortBreak; isSessionComplete := false;
                 isPanelPinned := false; pending := []; notices := [] |} |}.

(** Remove the first occurrence of a scheduled callback. *)
Fixpoint unschedule (k : Timeout) (l : list Timeout) : list Timeout :=
  match l with
  | [] => []
  | x :: r => if Timeout_eqb k x then r else x :: unschedule k r
  end.

(** Everything that can happen to the plugin: the user acts on a control
    or clicks somewhere in the document, the workspace changes its active
    leaf, the host runs a live interval or a pending timeout, or the
    plugin is unloaded. *)
Inductive Event : Type :=
| ClickTime
| RightClickTime
| ClickMode
| ClickPie
| ChangeSetting (c : SettingChange)
| IntervalFires (h : positive)
| TimeoutFires (k : Timeout)
| Unload
| LeafChange
| DocumentClick (outside : bool).

Definition handle (ev : Event) : Act unit :=
  match ev with
  | ClickTime => handlePauseResumeClick
  | RightClickTime => handleResetClick
  | ClickMode => handleCycleModeClick
  | ClickPie => pieButtonClick
  | ChangeSetting c => settingChanged c
  | IntervalFires h => timer_fire h
  | TimeoutFires k =>
      l <- readThis pending ;;
      if existsb (Timeout_eqb k) l then
        writeThis (with_pending (unschedule k l)) ;;
        match k with
        | AutoStartNext => autoStartCallback
        | AutoDismiss => autoDismissCallback
        end
      else ret tt
  | Unload => onunload
  | LeafChange => refreshHeaderButton
  | DocumentClick outside => handleDocumentClick outside
  end.

Definition step (ev : Event) (p : Plugin) : Plugin := execState (handle ev) p.

Definition run (evs : list Event) (p : Plugin) : Plugin :=
  fold_left (fun p ev => step ev p) evs p.

(** A session as the user lives it: click the time button, let the
    armed interval tick until nothing is left (the expiry timer of the
    previous session, if still pending, goes off meanwhile), then click
    again to acknowledge. *)
Definition liveInterval (p : Plugin) : positive :=
  match intervalId (timer p) with
  | Some h => h
  | None => 1%positive
  end.

Fixpoint elapse (n : nat) (p : Plugin) : Plugin :=
  match n with
  | O => p
  | S k => elapse k (step (IntervalFires (liveInterval p)) p)
  end.

Definition runToCompletion (p : Plugin) : Plugin :=
  let p1 := step (TimeoutFires AutoDismiss) (step ClickTime p) in
  elapse (Z.to_nat (remainingTime (timer p1))) p1.

(** [n] rounds of a Work session and the break that follows it; the
    result lists [nextMode] as it stands after each Work completion. *)
Fixpoint workSessions (n : nat) (p : Plugin) : list TimerState * Plugin :=
  match n with
  | O => ([], p)
  | S k =>
      let afterWork := runToCompletion p in
      let break := step ClickTime afterWork in
      let afterBreak := runToCompletion break in
      let rest := workSessions k (step ClickTime afterBreak) in
      (nextMode (owner afterWork) :: fst rest, snd rest)
  end.

(** The Session log, as the plugin and the statistics view read it. *)
Definition sessionLog (p : Plugin) : list Session :=
  sessions (settings (timer p)).

(** The count of completed pomodoros. *)
Definition pomodoroCount (p : Plugin) : Z := completedPomodoros (owner p).

End Plugin.

(** ** Predicates used in the proofs *)

Section Predicates.

Import Timer Recorded.

(** Holds whatever the configuration: an [Idle] timer shows zero time, the
    host's table holds the timer's own interval and nothing else, and the
    interval is armed exactly while the state is a mode. *)
Definition Sound (e : Engine) : Prop :=
  intervals (window e) =
    match intervalId (timer e) with Some h => [h] | None => [] end
  /\ match state (timer e) with
     | Idle => remainingTime (timer e) = 0 /\ totalTime (timer e) = 0
               /\ intervalId (timer e) = None
     | Paused => intervalId (timer e) = None
                 /\ isMode (prePauseState (timer e)) = true
     | _ => intervalId (timer e) <> None
     end.

(** Holds when every configuration has positive durations. *)
Definition Timed (e : Engine) : Prop :=
  positiveDurations (settings (timer e))
  /\ (state (timer e) <> Idle ->
      0 < remainingTime (timer e) <= totalTime (timer e)).

(** A computation keeps an observation [f] of the system when no run of
    it changes what [f] returns. *)
Definition keeps {W A X} (f : Sys W -> X) (m : Eff W A) : Prop :=
  forall s, f (snd (runState m s)) = f s.

(** An observation that looks at nothing but the settings object and the
    owner's fields. *)
Definition settingsAndOwnerOnly {W X} (f : Sys W -> X) : Prop :=
  forall s s',
    settings (timer s') = settings (timer s) -> owner s' = owner s ->
    f s' = f s.

End Predicates.

(** ** Observations used by the further properties *)

Section Observations.

Import Timer Recorded.

(** The arguments of the last [onTick]; before any tick, the zeros the
    timer is built with. *)
Definition lastTick (log : list Notification) : Z * Z :=
  fold_left (fun shown n =>
               match n with
               | OnTick r t => (r, t)
               | _ => shown
               end) log (0, 0).

(** Commands that never read the configuration in the state at hand:
    [start] (and [resume], which calls it) reads it only to load a
    duration when no time is left. *)
Definition readsNoSettings (c : Command) (e : Engine) : bool :=
  match c with
  | Start _ | Resume => negb (remainingTime (timer e) =? 0)
  | UpdateSettings _ => false
  | Pause | Stop | Reset | Fire _ => true
  end.

(** The timer and the host's table, without the owner. *)
Definition core {W} (s : Sys W) : PomoTimer * Window := (timer s, window s).

(** The same timer in the same window, observed by the recording owner
    from now on. *)
Definition forget {W} (s : Sys W) : Engine :=
  {| timer := timer s; window := window s; owner := [] |}.

(** A computation acts on the timer and the host's intervals as some
    sequence of the engine's commands would. *)
Definition simulated {W A} (m : Eff W A) : Prop :=
  forall s, exists cs,
    core (snd (runState m s)) = core (execAll cs (forget s)).

(** The command a click on the time button amounts to when no session
    awaits acknowledgment: pause when running, resume when paused, start
    the current mode when idle. *)
Definition toggleCommand (p : Plugin.Plugin) : Command :=
  if isMode (state (timer p)) then Pause
  else if TimerState_eqb (state (timer p)) Paused then Resume
  else Start (Plugin.currentMode (owner p)).

(** The plugin once the host has taken the callback [k] off its list of
    pending timeouts, before running it. *)
Definition taken (k : Plugin.Timeout) (p : Plugin.Plugin) : Plugin.Plugin :=
  {| timer := timer p; window := window p;
     owner := Plugin.with_pending
                (Plugin.unschedule k (Plugin.pending (owner p))) (owner p) |}.

(** How many of the events are runs of an interval callback. *)
Definition ticksIn (evs : list Plugin.Event) : nat :=
  List.length (filter (fun ev => match ev with
                                 | Plugin.IntervalFires _ => true
                                 | _ => false
                                 end) evs).

(** The mode after the current one on the mode label. *)
Definition cycled (m : TimerState) : TimerState :=
  match m with
  | Work => ShortBreak
  | ShortBreak => LongBreak
  | LongBreak => Work
  | other => other
  end.

(** The mode the timer runs, or ran before it was paused. *)
Definition timerMode (t : PomoTimer) : TimerState :=
  match state t with
  | Paused => prePauseState t
  | s => s
  end.

(** The expiry timeout going off when no session awaits acknowledgment. *)
Definition staleExpiry (ev : Plugin.Event) (p : Plugin.Plugin) : bool :=
  match ev with
  | Plugin.TimeoutFires Plugin.AutoDismiss =>
      negb (Plugin.isSessionComplete (owner p))
  | _ => false
  end.

(** No expiry timeout among the events goes off stale. *)
Fixpoint expiriesInTime (evs : list Plugin.Event) (p : Plugin.Plugin) : bool :=
  match evs with
  | [] => true
  | ev :: rest =>
      negb (staleExpiry ev p) && expiriesInTime rest (Plugin.step ev p)
  end.

(** The mode label names the mode of the timer whenever the timer has
    one, and no session awaits acknowledgment under a paused timer. *)
Definition labelAgrees (p : Plugin.Plugin) : Prop :=
  (state (timer p) <> Idle ->
   timerMode (timer p) = Plugin.currentMode (owner p))
  /\ (state (timer p) = Paused -> Plugin.isSessionComplete (owner p) = false)
  /\ isMode (Plugin.currentMode (owner p)) = true
  /\ isMode (Plugin.nextMode (owner p)) = true.

End Observations.

(** ** What the panel shows

    The text [updateUI] (and the side view's [updateTimer]) writes into
    the time element, for integer seconds: [Math.floor(x / 60)] is the
    floor quotient, [%] keeps the sign of the dividend, [toString] prints
    an integer in decimal, and [padStart(2, '0')] fills up to two
    characters from the left. *)

Module Display.

Definition toString (n : Z) : string :=
  DecimalString.NilZero.string_of_int (Z.to_int n).

Fixpoint fill (c : ascii) (n : nat) : string :=
  match n with
  | O => EmptyString
  | S k => String c (fill c k)
  end.

(** [s.padStart(targetLength, c)] for a pad string of one character. *)
Definition padStart (targetLength : nat) (c : ascii) (s : string) : string :=
  (fill c (targetLength - String.length s) ++ s)%string.

(** [`${minutes}:${seconds}`]. *)
Definition timeText (remainingTime : Z) : string :=
  (padStart 2 "0" (toString (remainingTime / 60))
   ++ ":" ++ padStart 2 "0" (toString (Z.rem remainingTime 60)))%string.

Definition getIdleTimeText (cfg : PomodoroSettings) (currentMode : TimerState)
  : string :=
  (toString (minutesOf cfg currentMode) ++ ":00")%string.

(** The text of the time element after [updateUI(remainingTime, _)]. *)
Definition panelTimeText (timerState : TimerState) (cfg : PomodoroSettings)
    (currentMode : TimerState) (remainingTime : Z) : string :=
  if TimerState_eqb timerState Idle then getIdleTimeText cfg currentMode
  else timeText remainingTime.

(** Reading a displayed time back: the digits before the first colon are
    minutes, those after it seconds. *)
Fixpoint splitAtColon (s : string) : option (string * string) :=
  match s with
  | EmptyString => None
  | String c rest =>
      if Ascii.eqb c ":" then Some (EmptyString, rest)
      else match splitAtColon rest with
           | Some (a, b) => Some (String c a, b)
           | None => None
           end
  end.

(** [u] with [k] zeros in front. *)
Fixpoint leadingZeros (k : nat) (u : Decimal.uint) : Decimal.uint :=
  match k with
  | O => u
  | S j => Decimal.D0 (leadingZeros j u)
  end.

Definition readTime (s : string) : option Z :=
  match splitAtColon s with
  | Some (m, sec) =>
      match DecimalString.NilZero.uint_of_string m,
            DecimalString.NilZero.uint_of_string sec with
      | Some a, Some b => Some (Z.of_uint a * 60 + Z.of_uint b)
      | _, _ => None
      end
  | None => None
  end.

End Display.

(** * The engine: what each method does *)

Section EngineEquations.

Import Timer Recorded.

Lemma TimerState_eqb_spec a b : reflect (a = b) (TimerState_eqb a b).
Proof. destruct a, b; constructor; congruence. Qed.

Lemma skipn_own_length {A} (l x : list A) : skipn (List.length l) (l ++ x) = x.
Proof. induction l as [|a l IH]; [reflexivity | exact IH]. Qed.

Lemma existsb_eqb_In h l : existsb (Pos.eqb h) l = true <-> In h l.
Proof.
  rewrite existsb_exists. split.
  - intros [x [Hin Hx]]. apply Pos.eqb_eq in Hx. now subst.
  - intros Hin. exists h. split; [assumption | apply Pos.eqb_refl].
Qed.

Local Ltac unfold_engine :=
  unfold exec, execState, perform, start, stop, pause, resume, reset, fire,
    intervalCallback, stop, updateSettings, readTimer, writeTimer,
    setInterval, clearInterval, onTick, onStateChange, onTimerComplete,
    emit, clearedOf.

(** A short session, as the log shows it: start, two ticks, a pause and
    a resume, a tick, a stop. *)
Example recorded_session :
  owner (execAll [Start Work; Fire 1; Fire 1; Pause; Resume; Fire 2; Stop]
                 (boot DEFAULT_SETTINGS))
  = [OnTick 1500 1500; OnTick 1499 1500; OnTick 1498 1500;
     OnTick 1498 1500; OnTick 1498 1500; OnTick 1497 1500; OnTick 0 0].
Proof. reflexivity. Qed.

(** A cleared interval has no callback left to run. *)
Example cleared_interval_is_dead :
  exec (Fire 1) (execAll [Start ShortBreak; Pause] (boot DEFAULT_SETTINGS))
  = execAll [Start ShortBreak; Pause] (boot DEFAULT_SETTINGS).
Proof. reflexivity. Qed.

(** [start] with [Idle] or [Paused]: the guard on the first line. *)
Lemma start_guarded e st : isMode st = false -> exec (Start st) e = e.
Proof. intros Hm. destruct st; try discriminate; reflexivity. Qed.

(** [start] with a mode. *)
Lemma start_mode e st :
  isMode st = true ->
  exec (Start st) e =
  let t0 := timer e in
  let r := if remainingTime t0 =? 0 then minutesOf (settings t0) st * 60
           else remainingTime t0 in
  let tot := if remainingTime t0 =? 0 then r else totalTime t0 in
  let h := nextHandle (window e) in
  {| timer := {| state := st; prePauseState := prePauseState t0;
                 remainingTime := r; totalTime := tot;
                 intervalId := Some h; settings := settings t0 |};
     window := {| nextHandle := Pos.succ h;
                  intervals := h :: intervals (clearedOf t0 (window e)) |};
     owner := owner e ++ [OnTick r tot] |}.
Proof.
  intros Hm. destruct e as [[s p r t i cfg] [n l] log].
  unfold_engine.
  destruct st; try discriminate; cbn;
    destruct (r =? 0); cbn; destruct i; reflexivity.
Qed.

Lemma stop_eq e :
  exec Stop e =
  {| timer := halted (timer e); window := clearedOf (timer e) (window e);
     owner := owner e ++ [OnTick 0 0] |}.
Proof.
  destruct e as [[s p r t i cfg] [n l] log].
  unfold_engine. destruct i; reflexivity.
Qed.

Lemma reset_eq e :
  exec Reset e =
  {| timer := halted (timer e); window := clearedOf (timer e) (window e);
     owner := owner e ++ [OnTick 0 0; OnTick 0 0] |}.
Proof.
  destruct e as [[s p r t i cfg] [n l] log].
  unfold_engine. destruct i; cbn; rewrite <- app_assoc; reflexivity.
Qed.

Lemma pause_eq e :
  exec Pause e =
  match intervalId (timer e) with
  | Some h =>
      if isMode (state (timer e)) then
        {| timer := {| state := Paused; prePauseState := state (timer e);
                       remainingTime := remainingTime (timer e);
                       totalTime := totalTime (timer e);
                       intervalId := None;
                       settings := settings (timer e) |};
           window := clearedOf (timer e) (window e);
           owner := owner e ++ [OnTick (remainingTime (timer e))
                                       (totalTime (timer e))] |}
      else e
  | None => e
  end.
Proof.
  destruct e as [[s p r t i cfg] [n l] log].
  unfold_engine. destruct i; [|reflexivity]. destruct s; reflexivity.
Qed.

Lemma resume_eq e :
  exec Resume e =
  if TimerState_eqb (state (timer e)) Paused
  then exec (Start (prePauseState (timer e))) e
  else e.
Proof.
  destruct e as [[s p r t i cfg] [n l] log].
  unfold exec, execState, perform, resume, readTimer. cbn.
  destruct s; reflexivity.
Qed.

Lemma updateSettings_eq e cfg :
  exec (UpdateSettings cfg) e =
  {| timer := with_settings cfg (timer e); window := window e;
     owner := owner e |}.
Proof. reflexivity. Qed.

(** The interval callback: one second less, and the completion sequence
    when nothing is left. *)
Lemma fire_eq e h :
  exec (Fire h) e =
  if existsb (Pos.eqb h) (intervals (window e)) then
    let r := remainingTime (timer e) - 1 in
    if r <=? 0 then
      {| timer := halted (timer e); window := clearedOf (timer e) (window e);
         owner := owner e ++ [OnTick r (totalTime (timer e)); OnTick 0 0;
                              OnTimerComplete;
                              OnStateChange (state (timer e))] |}
    else
      {| timer := with_remainingTime r (timer e); window := window e;
         owner := owner e ++ [OnTick r (totalTime (timer e))] |}
  else e.
Proof.
  destruct e as [[s p r t i cfg] [n l] log].
  unfold_engine. cbn.
  destruct (existsb (Pos.eqb h) l); [|reflexivity]. cbn.
  destruct (r - 1 <=? 0); [|reflexivity].
  destruct i; cbn; repeat rewrite <- app_assoc; reflexivity.
Qed.

End EngineEquations.

(** * The engine: invariants of its reachable states *)

Section EngineInvariants.

Import Timer Recorded.

Lemma remove_single h : remove Pos.eq_dec h [h] = [].
Proof. cbn. destruct (Pos.eq_dec h h); [reflexivity | contradiction]. Qed.

Lemma cleared_table e :
  Sound e -> intervals (clearedOf (timer e) (window e)) = [].
Proof.
  intros [Ht _]. unfold clearedOf.
  destruct (intervalId (timer e)); cbn; rewrite Ht;
    [apply remove_single | reflexivity].
Qed.

Lemma Sound_boot cfg : Sound (boot cfg).
Proof. cbn. repeat split. Qed.

Lemma Sound_start e st : Sound e -> Sound (exec (Start st) e).
Proof.
  intros HS. destruct (isMode st) eqn:Hm.
  - rewrite (start_mode e st Hm). cbn.
    rewrite (cleared_table e HS).
    split; [reflexivity|]. destruct st; try discriminate; discriminate.
  - now rewrite (start_guarded e st Hm).
Qed.

Lemma Sound_halted e log :
  Sound e ->
  Sound {| timer := halted (timer e); window := clearedOf (timer e) (window e);
           owner := log |}.
Proof.
  intros HS. split; cbn; [apply (cleared_table e HS) | repeat split].
Qed.

Lemma Sound_exec e c : Sound e -> Sound (exec c e).
Proof.
  intros HS. destruct c.
  - now apply Sound_start.
  - rewrite pause_eq. destruct (intervalId (timer e)) eqn:Hi; [|assumption].
    destruct (isMode (state (timer e))) eqn:Hm; [|assumption].
    split; cbn.
    + apply (cleared_table e HS).
    + split; [reflexivity | assumption].
  - rewrite resume_eq.
    destruct (TimerState_eqb (state (timer e)) Paused);
      [now apply Sound_start | assumption].
  - rewrite stop_eq. now apply Sound_halted.
  - rewrite reset_eq. now apply Sound_halted.
  - exact HS.
  - rewrite fire_eq.
    destruct (existsb (Pos.eqb h) (intervals (window e))) eqn:Hh; [|assumption].
    cbn. destruct (remainingTime (timer e) - 1 <=? 0) eqn:Hr.
    + now apply Sound_halted.
    + destruct HS as [Ht Hs]. split; cbn; [assumption|].
      destruct (intervalId (timer e)) eqn:Hi.
      * destruct (state (timer e)); try assumption;
          destruct Hs as (_ & _ & Hs) || destruct Hs as (Hs & _);
          discriminate.
      * rewrite Ht in Hh. discriminate.
Qed.

Lemma Reachable_Sound P e : Reachable P e -> Sound e.
Proof.
  induction 1 as [cfg _ | e c _ IH _];
    [apply Sound_boot | now apply Sound_exec].
Qed.

Lemma Timed_boot cfg : positiveDurations cfg -> Timed (boot cfg).
Proof. intros H. split; [exact H | cbn; congruence]. Qed.

Lemma minutes_positive cfg m :
  positiveDurations cfg -> 0 < minutesOf cfg m * 60.
Proof. intros (Hw & Hs & Hl). destruct m; cbn; lia. Qed.

Lemma Timed_start e st : Sound e -> Timed e -> Timed (exec (Start st) e).
Proof.
  intros HS [HP HT]. destruct (isMode st) eqn:Hm.
  - rewrite (start_mode e st Hm). split; cbn; [assumption|]. intros _.
    destruct (Z.eqb_spec (remainingTime (timer e)) 0) as [Hz|Hz].
    + pose proof (minutes_positive (settings (timer e)) st HP). lia.
    + apply HT. intros Hidle. destruct HS as [_ Hs].
      rewrite Hidle in Hs. now destruct Hs.
  - rewrite (start_guarded e st Hm). now split.
Qed.

Lemma Timed_exec e c :
  admissible positiveDurations c -> Sound e -> Timed e -> Timed (exec c e).
Proof.
  intros Hc HS HT. destruct c.
  - now apply Timed_start.
  - rewrite pause_eq. destruct (intervalId (timer e)); [|assumption].
    destruct (isMode (state (timer e))) eqn:Hm; [|assumption].
    destruct HT as [HP HT]. split; cbn; [assumption|]. intros _.
    apply HT. intros Hi. now rewrite Hi in Hm.
  - rewrite resume_eq.
    destruct (TimerState_eqb (state (timer e)) Paused);
      [now apply Timed_start | assumption].
  - rewrite stop_eq. destruct HT as [HP _]. split; cbn; [assumption | congruence].
  - rewrite reset_eq. destruct HT as [HP _]. split; cbn; [assumption | congruence].
  - destruct HT as [_ HT]. split; [exact Hc | exact HT].
  - rewrite fire_eq.
    destruct (existsb (Pos.eqb h) (intervals (window e))); [|assumption].
    cbn. destruct HT as [HP HT].
    destruct (Z.leb_spec (remainingTime (timer e) - 1) 0) as [Hr|Hr];
      split; cbn; try assumption; try congruence.
    intros Hidle. specialize (HT Hidle). lia.
Qed.

Lemma Reachable_weaken (P Q : PomodoroSettings -> Prop) e :
  (forall cfg, P cfg -> Q cfg) -> Reachable P e -> Reachable Q e.
Proof.
  intros HPQ. induction 1 as [cfg Hc | e c _ IH Hc].
  - apply reach_boot. now apply HPQ.
  - apply reach_exec; [assumption|]. destruct c; cbn in *; auto.
Qed.

Lemma Reachable_Timed e : Reachable positiveDurations e -> Timed e.
Proof.
  induction 1 as [cfg Hc | e c Hr IH Hc].
  - now apply Timed_boot.
  - apply Timed_exec; [assumption | | assumption].
    now apply Reachable_Sound with positiveDurations.
Qed.

(** A running or paused timer of a positive configuration has time left. *)
Lemma active_has_time e :
  Reachable positiveDurations e -> state (timer e) <> Idle ->
  0 < remainingTime (timer e) <= totalTime (timer e).
Proof. intros Hr. apply (Reachable_Timed e Hr). Qed.

(** An idle timer shows no time and has no interval. *)
Lemma idle_is_clear P e :
  Reachable P e -> state (timer e) = Idle ->
  remainingTime (timer e) = 0 /\ totalTime (timer e) = 0
  /\ intervalId (timer e) = None /\ intervals (window e) = [].
Proof.
  intros Hr Hi. destruct (Reachable_Sound P e Hr) as [Ht Hs].
  rewrite Hi in Hs. destruct Hs as (H1 & H2 & H3).
  rewrite H3 in Ht. auto.
Qed.

(** A running timer owns the one live interval. *)
Lemma running_is_armed P e :
  Reachable P e -> isMode (state (timer e)) = true ->
  exists h, intervalId (timer e) = Some h /\ intervals (window e) = [h].
Proof.
  intros Hr Hm. destruct (Reachable_Sound P e Hr) as [Ht Hs].
  destruct (intervalId (timer e)) as [h|] eqn:Hi.
  - exists h. auto.
  - destruct (state (timer e)); try discriminate; now elim Hs.
Qed.

(** A paused timer has no interval and remembers a mode. *)
Lemma paused_is_disarmed P e :
  Reachable P e -> state (timer e) = Paused ->
  intervalId (timer e) = None /\ intervals (window e) = []
  /\ isMode (prePauseState (timer e)) = true.
Proof.
  intros Hr Hp. destruct (Reachable_Sound P e Hr) as [Ht Hs].
  rewrite Hp in Hs. destruct Hs as [H1 H2]. rewrite H1 in Ht. auto.
Qed.

End EngineInvariants.

(** * The engine: the specification's statements *)

Section EngineClaims.

Import Timer Recorded.

Lemma emitted_app c e x : owner (exec c e) = owner e ++ x -> emitted c e = x.
Proof. intros H. unfold emitted. rewrite H. apply skipn_own_length. Qed.

Lemma emitted_nothing c e : exec c e = e -> emitted c e = [].
Proof.
  intros H. apply emitted_app. rewrite H. symmetry. apply app_nil_r.
Qed.

(** A start from the idle state: the duration is loaded. *)
Lemma fresh_start P (e : Engine) (m : TimerState) :
  Reachable P e -> state (timer e) = Idle -> isMode m = true ->
  exec (Start m) e =
  let d := minutesOf (settings (timer e)) m * 60 in
  let h := nextHandle (window e) in
  {| timer := {| state := m; prePauseState := prePauseState (timer e);
                 remainingTime := d; totalTime := d;
                 intervalId := Some h; settings := settings (timer e) |};
     window := {| nextHandle := Pos.succ h; intervals := [h] |};
     owner := owner e ++ [OnTick d d] |}.
Proof.
  intros Hr Hi Hm.
  destruct (idle_is_clear _ e Hr Hi) as (H0 & _ & Hid & Hl).
  rewrite (start_mode e m Hm). cbn. rewrite H0. cbn.
  unfold clearedOf. rewrite Hid, Hl. reflexivity.
Qed.

(** C8: for all settings and every mode [m], [start(m)] from the idle
    state sets the total and the remaining time to the configured minutes
    of [m] times 60 and leaves the timer running in [m], its interval
    armed. *)
Theorem start_from_idle_loads_duration (e : Engine) (m : TimerState) :
  Reachable anySettings e ->
  state (timer e) = Idle ->
  isMode m = true ->
  let e' := exec (Start m) e in
  remainingTime (timer e') = minutesOf (settings (timer e)) m * 60
  /\ totalTime (timer e') = minutesOf (settings (timer e)) m * 60
  /\ state (timer e') = m
  /\ (exists h, intervalId (timer e') = Some h /\ intervals (window e') = [h])
  /\ settings (timer e') = settings (timer e).
Proof.
  intros Hr Hi Hm e'. subst e'.
  rewrite (fresh_start _ e m Hr Hi Hm). cbn.
  repeat split. now exists (nextHandle (window e)).
Qed.

Lemma start_from_idle_loads_duration_witness :
  let e' := exec (Start ShortBreak) (boot DEFAULT_SETTINGS) in
  remainingTime (timer e') = 5 * 60
  /\ totalTime (timer e') = 5 * 60
  /\ state (timer e') = ShortBreak
  /\ (exists h, intervalId (timer e') = Some h /\ intervals (window e') = [h])
  /\ settings (timer e') = DEFAULT_SETTINGS.
Proof.
  apply (start_from_idle_loads_duration (boot DEFAULT_SETTINGS) ShortBreak).
  - apply reach_boot. exact I.
  - reflexivity.
  - reflexivity.
Defined.

(** C10: [start(Idle)] and [start(Paused)] return on the first line: in
    every state of the system, and whatever the callbacks, they change no
    field of the timer, leave the host's intervals alone and call no
    callback; with the recording callbacks the log gains nothing. *)
Theorem start_with_status_value_is_noop :
  (forall (W : Type) (onTick : Z -> Z -> Eff W unit) (s : Sys W),
      runState (start onTick Idle) s = (tt, s)
      /\ runState (start onTick Paused) s = (tt, s))
  /\ (forall e : Engine,
         exec (Start Idle) e = e
         /\ exec (Start Paused) e = e
         /\ emitted (Start Idle) e = []
         /\ emitted (Start Paused) e = []).
Proof.
  split.
  - intros W onTick s. split; reflexivity.
  - intros e.
    assert (HI : exec (Start Idle) e = e) by reflexivity.
    assert (HP : exec (Start Paused) e = e) by reflexivity.
    repeat split; try assumption; now apply emitted_nothing.
Qed.

(** C4, as stated, fails: [start] has no guard on the current state.
    Started in [Work] and then called with [ShortBreak], the running timer
    takes the new mode; called on a paused timer, [start] resumes it. *)
Lemma start_while_active_not_rejected :
  let running := exec (Start Work) (boot DEFAULT_SETTINGS) in
  let paused := exec Pause running in
  state (timer running) = Work
  /\ state (timer (exec (Start ShortBreak) running)) = ShortBreak
  /\ state (timer paused) = Paused
  /\ prePauseState (timer paused) = Work
  /\ state (timer (exec (Start Work) paused)) = Work
  /\ exec (Start Work) paused <> paused.
Proof. vm_compute. repeat split; discriminate. Qed.

(** C4, amended: while running or paused with time left, [start(m')]
    with any mode [m'] is accepted: the state becomes [m'], the remaining
    and the total time are kept, the interval is re-armed under a fresh
    handle and one tick notification is emitted.  With [m'] the running
    mode, state and times are therefore unchanged. *)
Theorem start_while_active_overrides_mode (e : Engine) (m' : TimerState) :
  Reachable positiveDurations e ->
  state (timer e) <> Idle ->
  isMode m' = true ->
  let e' := exec (Start m') e in
  state (timer e') = m'
  /\ remainingTime (timer e') = remainingTime (timer e)
  /\ totalTime (timer e') = totalTime (timer e)
  /\ intervalId (timer e') = Some (nextHandle (window e))
  /\ intervals (window e') = [nextHandle (window e)]
  /\ emitted (Start m') e =
       [OnTick (remainingTime (timer e)) (totalTime (timer e))].
Proof.
  intros Hr Ha Hm e'. subst e'.
  pose proof (active_has_time e Hr Ha) as Ht.
  pose proof (cleared_table e (Reachable_Sound _ e Hr)) as Hc.
  assert (Hz : (remainingTime (timer e) =? 0) = false) by (apply Z.eqb_neq; lia).
  repeat split; try (rewrite (start_mode e m' Hm); cbn; rewrite ?Hz, ?Hc; reflexivity).
  apply emitted_app. rewrite (start_mode e m' Hm). cbn. rewrite Hz. reflexivity.
Qed.

Lemma start_while_active_overrides_mode_witness :
  let e := exec (Start Work) (boot DEFAULT_SETTINGS) in
  let e' := exec (Start LongBreak) e in
  state (timer e') = LongBreak
  /\ remainingTime (timer e') = remainingTime (timer e)
  /\ totalTime (timer e') = totalTime (timer e)
  /\ intervalId (timer e') = Some (nextHandle (window e))
  /\ intervals (window e') = [nextHandle (window e)]
  /\ emitted (Start LongBreak) e =
       [OnTick (remainingTime (timer e)) (totalTime (timer e))].
Proof.
  apply (start_while_active_overrides_mode
           (exec (Start Work) (boot DEFAULT_SETTINGS)) LongBreak).
  - apply reach_exec; [apply reach_boot; unfold positiveDurations; cbn; lia | exact I].
  - discriminate.
  - reflexivity.
Defined.

(** A completion is announced by the interval callback only, on the tick
    that leaves nothing. *)
Lemma completion_only_from_last_tick c e :
  In OnTimerComplete (emitted c e) ->
  exists h, c = Fire h /\ In h (intervals (window e))
            /\ remainingTime (timer e) - 1 <= 0.
Proof.
  assert (Hstart : forall st, ~ In OnTimerComplete (emitted (Start st) e)).
  { intros st. destruct (isMode st) eqn:Hm.
    - erewrite emitted_app by (rewrite (start_mode e st Hm); reflexivity).
      cbn. intuition discriminate.
    - rewrite emitted_nothing by apply (start_guarded e st Hm). auto. }
  destruct c; intros Hin.
  - now apply Hstart in Hin.
  - exfalso. revert Hin. unfold emitted. rewrite pause_eq.
    destruct (intervalId (timer e)); [destruct (isMode (state (timer e)))|];
      cbn [owner]; rewrite ?skipn_own_length, ?skipn_all; cbn;
      intuition discriminate.
  - exfalso. revert Hin. unfold emitted. rewrite resume_eq.
    destruct (TimerState_eqb (state (timer e)) Paused).
    + apply Hstart.
    + rewrite skipn_all. auto.
  - exfalso. revert Hin.
    erewrite emitted_app by (rewrite stop_eq; reflexivity).
    cbn. intuition discriminate.
  - exfalso. revert Hin.
    erewrite emitted_app by (rewrite reset_eq; reflexivity).
    cbn. intuition discriminate.
  - exfalso. revert Hin. unfold emitted. cbn [exec]. rewrite updateSettings_eq.
    cbn [owner]. rewrite skipn_all. auto.
  - exists h. revert Hin. unfold emitted. rewrite fire_eq.
    destruct (existsb (Pos.eqb h) (intervals (window e))) eqn:Hh.
    + apply existsb_eqb_In in Hh. cbn zeta.
      destruct (Z.leb_spec (remainingTime (timer e) - 1) 0) as [Hr|Hr].
      * auto.
      * cbn [owner]. rewrite skipn_own_length. cbn. intuition discriminate.
    + rewrite skipn_all. intros [].
Qed.

(** C2, as stated, fails: on the tick that completes a 25-minute interval
    the engine calls [onTimerComplete()] without arguments and
    [onStateChange(Work)], both after [stop()] has zeroed the total; no
    notification carries the mode together with the interval's 1500
    seconds, and a completion callback that asks the getters finds the
    timer idle already, with a total of 0. *)
Lemma completion_carries_no_duration :
  let e := execAll (Start Work :: repeat (Fire 1%positive) 1499)
                   (boot DEFAULT_SETTINGS) in
  state (timer e) = Work
  /\ remainingTime (timer e) = 1
  /\ totalTime (timer e) = 1500
  /\ emitted (Fire 1%positive) e =
       [OnTick 0 1500; OnTick 0 0; OnTimerComplete; OnStateChange Work]
  /\ ~ (exists n, In n (emitted (Fire 1%positive) e)
                  /\ carriedMode n = Some Work
                  /\ carriedTotal n = Some 1500)
  /\ owner (Probed.countdown DEFAULT_SETTINGS Work 1500) =
       [{| Probed.seenState := Idle; Probed.seenRemaining := 0;
           Probed.seenTotal := 0 |}].
Proof.
  vm_compute. repeat split.
  intros (n & Hin & Hm & Ht).
  repeat (destruct Hin as [<- | Hin]; [discriminate|]). exact Hin.
Qed.

(** C2, amended: on the tick that leaves no time, the engine stops the
    countdown and is idle (interval cleared, remaining and total time
    zeroed) and has called, in this order, [onTick] with the new remaining
    time and the interval's total, [onTick(0, 0)] from [stop], exactly one
    [onTimerComplete()] without payload, and [onStateChange] with the mode
    that just finished.  No other command announces a completion. *)
Theorem completion_sequence (e : Engine) (h : positive) :
  Reachable anySettings e ->
  isMode (state (timer e)) = true ->
  In h (intervals (window e)) ->
  remainingTime (timer e) <= 1 ->
  let e' := exec (Fire h) e in
  state (timer e') = Idle
  /\ remainingTime (timer e') = 0
  /\ totalTime (timer e') = 0
  /\ intervalId (timer e') = None
  /\ intervals (window e') = []
  /\ emitted (Fire h) e =
       [OnTick (remainingTime (timer e) - 1) (totalTime (timer e));
        OnTick 0 0; OnTimerComplete; OnStateChange (state (timer e))]
  /\ List.length (filter isCompletion (emitted (Fire h) e)) = 1%nat
  /\ (forall c, In OnTimerComplete (emitted c e) -> exists h', c = Fire h').
Proof.
  intros Hr Hm Hh Hlast e'. subst e'.
  pose proof (cleared_table e (Reachable_Sound _ e Hr)) as Hc.
  apply existsb_eqb_In in Hh.
  assert (Hz : (remainingTime (timer e) - 1 <=? 0) = true)
    by (apply Z.leb_le; lia).
  assert (He : emitted (Fire h) e =
               [OnTick (remainingTime (timer e) - 1) (totalTime (timer e));
                OnTick 0 0; OnTimerComplete; OnStateChange (state (timer e))]).
  { apply emitted_app. rewrite fire_eq, Hh. cbn zeta. rewrite Hz. reflexivity. }
  repeat split; try (rewrite fire_eq, Hh; cbn zeta; rewrite Hz; cbn; now rewrite ?Hc).
  - exact He.
  - rewrite He. reflexivity.
  - intros c Hin. destruct (completion_only_from_last_tick c e Hin) as (h' & Hc' & _).
    now exists h'.
Qed.

Lemma admissible_any c : admissible anySettings c.
Proof. destruct c; exact I. Qed.

Lemma Reachable_execAll P cs e :
  Reachable P e -> Forall (admissible P) cs -> Reachable P (execAll cs e).
Proof.
  intros Hr Hcs. revert e Hr.
  induction Hcs as [|c cs Hc _ IH]; intros e Hr; [exact Hr|].
  cbn. apply IH. now apply reach_exec.
Qed.

Lemma completion_sequence_witness :
  let e := execAll (Start Work :: repeat (Fire 1%positive) 1499)
                   (boot DEFAULT_SETTINGS) in
  let e' := exec (Fire 1%positive) e in
  state (timer e') = Idle
  /\ remainingTime (timer e') = 0
  /\ totalTime (timer e') = 0
  /\ intervalId (timer e') = None
  /\ intervals (window e') = []
  /\ emitted (Fire 1%positive) e =
       [OnTick (remainingTime (timer e) - 1) (totalTime (timer e));
        OnTick 0 0; OnTimerComplete; OnStateChange (state (timer e))]
  /\ List.length (filter isCompletion (emitted (Fire 1%positive) e)) = 1%nat
  /\ (forall c, In OnTimerComplete (emitted c e) -> exists h', c = Fire h').
Proof.
  apply (completion_sequence
           (execAll (Start Work :: repeat (Fire 1%positive) 1499)
                    (boot DEFAULT_SETTINGS)) 1%positive).
  - apply Reachable_execAll.
    + apply reach_boot. exact I.
    + apply Forall_forall. intros c _. apply admissible_any.
  - vm_compute. reflexivity.
  - vm_compute. left. reflexivity.
  - vm_compute. discriminate.
Defined.

(** C9, as stated, fails: [updateSettings] stores whatever it is given.
    A configuration with a work time of 0 minutes and an interval of -1
    replaces the valid one, and the next [start] runs on it. *)
Lemma invalid_settings_are_installed :
  let bad := {| workTime := 0; shortBreakTime := 5; longBreakTime := 15;
                longBreakInterval := -1; autoStartBreaks := false;
                autoStartPomodoros := false; showDesktopNotification := true;
                playSound := true; showInStatusBar := false;
                sessions := []; tasks := [] |} in
  let before := boot DEFAULT_SETTINGS in
  let after := exec (UpdateSettings bad) before in
  workTime bad <= 0
  /\ longBreakInterval bad <= 0
  /\ settings (timer after) = bad
  /\ settings (timer after) <> settings (timer before)
  /\ remainingTime (timer (exec (Start Work) after)) = 0
  /\ remainingTime (timer (exec (Start Work) before)) = 1500.
Proof. vm_compute. repeat split; discriminate. Qed.

(** C9, amended: [updateSettings] validates nothing.  Whatever the
    supplied settings and whatever the engine is doing, they become the
    engine's configuration; the state, the remaining and total time, the
    interval and the host's table are left as they are and no callback is
    called; a later [start] that finds no time left, as every start from
    idle does, takes its duration from the supplied settings, positive or
    not. *)
Theorem updateSettings_installs_any (e : Engine) (cfg : PomodoroSettings) :
  let e' := exec (UpdateSettings cfg) e in
  settings (timer e') = cfg
  /\ state (timer e') = state (timer e)
  /\ prePauseState (timer e') = prePauseState (timer e)
  /\ remainingTime (timer e') = remainingTime (timer e)
  /\ totalTime (timer e') = totalTime (timer e)
  /\ intervalId (timer e') = intervalId (timer e)
  /\ window e' = window e
  /\ emitted (UpdateSettings cfg) e = []
  /\ (forall m, isMode m = true -> remainingTime (timer e) = 0 ->
        remainingTime (timer (exec (Start m) e')) = minutesOf cfg m * 60
        /\ totalTime (timer (exec (Start m) e')) = minutesOf cfg m * 60)
  /\ (forall m, isMode m = true ->
        Reachable anySettings e -> state (timer e) = Idle ->
        remainingTime (timer (exec (Start m) e')) = minutesOf cfg m * 60).
Proof.
  intros e'. subst e'.
  assert (Hstart : forall m, isMode m = true -> remainingTime (timer e) = 0 ->
            remainingTime (timer (exec (Start m) (exec (UpdateSettings cfg) e)))
              = minutesOf cfg m * 60
            /\ totalTime (timer (exec (Start m) (exec (UpdateSettings cfg) e)))
              = minutesOf cfg m * 60).
  { intros m Hm H0. rewrite (start_mode _ m Hm), updateSettings_eq.
    cbn. rewrite H0. cbn. split; reflexivity. }
  repeat split.
  - apply emitted_app. cbn. symmetry. apply app_nil_r.
  - now apply Hstart.
  - now apply Hstart.
  - intros m Hm Hr Hi.
    destruct (idle_is_clear _ e Hr Hi) as (H0 & _).
    now apply Hstart.
Qed.

Lemma updateSettings_installs_any_witness :
  let cfg := {| workTime := -3; shortBreakTime := 0; longBreakTime := 15;
                longBreakInterval := 0; autoStartBreaks := false;
                autoStartPomodoros := false; showDesktopNotification := true;
                playSound := true; showInStatusBar := false;
                sessions := []; tasks := [] |} in
  let running := execAll [Start Work; Fire 1%positive; Fire 1%positive]
                         (boot DEFAULT_SETTINGS) in
  let idle := boot DEFAULT_SETTINGS in
  (state (timer running) = Work /\ remainingTime (timer running) = 1498)
  /\ (settings (timer (exec (UpdateSettings cfg) running)) = cfg
      /\ state (timer (exec (UpdateSettings cfg) running)) = Work
      /\ remainingTime (timer (exec (UpdateSettings cfg) running)) = 1498
      /\ window (exec (UpdateSettings cfg) running) = window running
      /\ emitted (UpdateSettings cfg) running = [])
  /\ remainingTime
       (timer (exec (Start Work) (exec (UpdateSettings cfg) idle))) = -180
  /\ remainingTime
       (timer (exec (Start ShortBreak) (exec (UpdateSettings cfg) idle))) = 0.
Proof.
  intros cfg running idle.
  destruct (updateSettings_installs_any running cfg)
    as (Hs & Hst & _ & Hr & _ & _ & Hw & He & _).
  destruct (updateSettings_installs_any idle cfg)
    as (_ & _ & _ & _ & _ & _ & _ & _ & Hzero & Hidle).
  split; [split; reflexivity|].
  split.
  { split; [exact Hs|]. split; [exact Hst|]. split; [exact Hr|].
    split; [exact Hw | exact He]. }
  split.
  - exact (proj1 (Hzero Work eq_refl eq_refl)).
  - apply (Hidle ShortBreak eq_refl).
    + apply reach_boot. exact I.
    + reflexivity.
Defined.

(** The remaining time after a command, case by case. *)
Lemma remaining_after e c :
  Sound e -> Timed e ->
  let r := remainingTime (timer e) in
  let r' := remainingTime (timer (exec c e)) in
  match c with
  | Start m =>
      if isMode m then
        state (timer (exec c e)) = m
        /\ (r' = r \/ (state (timer e) = Idle
                       /\ r' = totalTime (timer (exec c e)) /\ 0 < r'))
      else exec c e = e
  | Pause | UpdateSettings _ => r' = r
  | Resume => r' = r /\ (state (timer e) = Paused ->
                         state (timer (exec c e)) <> Paused)
  | Stop | Reset => r' = 0 /\ state (timer (exec c e)) = Idle
  | Fire h =>
      if existsb (Pos.eqb h) (intervals (window e)) then
        isMode (state (timer e)) = true
        /\ ((r' = 0 /\ state (timer (exec c e)) = Idle) \/ r' = r - 1)
      else exec c e = e
  end.
Proof.
  intros HS [HP HT] r r'. subst r r'.
  assert (Hidle : remainingTime (timer e) = 0 -> state (timer e) = Idle).
  { intros Hz. destruct (TimerState_eqb_spec (state (timer e)) Idle) as [|Hn];
      [assumption | specialize (HT Hn); lia]. }
  assert (Hstart : forall m, isMode m = true ->
            state (timer (exec (Start m) e)) = m
            /\ (remainingTime (timer (exec (Start m) e)) = remainingTime (timer e)
                \/ (state (timer e) = Idle
                    /\ remainingTime (timer (exec (Start m) e))
                       = totalTime (timer (exec (Start m) e))
                    /\ 0 < remainingTime (timer (exec (Start m) e))))).
  { intros m Hm. rewrite (start_mode e m Hm). cbn. split; [reflexivity|].
    destruct (Z.eqb_spec (remainingTime (timer e)) 0) as [Hz|Hz]; [right | now left].
    repeat split; [now apply Hidle | now apply minutes_positive]. }
  destruct c.
  - destruct (isMode st) eqn:Hm; [now apply Hstart | now apply start_guarded].
  - rewrite pause_eq. destruct (intervalId (timer e)); [|reflexivity].
    destruct (isMode (state (timer e))); reflexivity.
  - rewrite resume_eq.
    destruct (TimerState_eqb_spec (state (timer e)) Paused) as [Hp|Hp].
    + destruct HS as [_ Hs]. rewrite Hp in Hs. destruct Hs as [_ Hpre].
      destruct (Hstart _ Hpre) as [Hst [Hsame | (Hi & _)]].
      * split; [assumption|]. intros _. rewrite Hst. intros Heq.
        now rewrite Heq in Hpre.
      * congruence.
    + split; [reflexivity | intros; contradiction].
  - rewrite stop_eq. split; reflexivity.
  - rewrite reset_eq. split; reflexivity.
  - reflexivity.
  - rewrite fire_eq.
    destruct (existsb (Pos.eqb h) (intervals (window e))) eqn:Hh; [|reflexivity].
    split.
    + destruct HS as [Ht Hs]. destruct (state (timer e)); try reflexivity;
        [destruct Hs as [Hs _] | destruct Hs as (_ & _ & Hs)];
        rewrite Hs in Ht; rewrite Ht in Hh; discriminate.
    + cbn zeta. destruct (remainingTime (timer e) - 1 <=? 0);
        [left; split; reflexivity | right; reflexivity].
Qed.

(** C7: in every state reached under positive configured durations the
    remaining time is at most the total and both are zero only when idle;
    while running no command raises the remaining time and a tick of the
    timer's interval lowers it; while paused nothing but [stop]/[reset]
    changes it; a command that raises it is a [start] of a mode from the
    idle state, which sets it to the total; and [pause()] followed by
    [resume()] leaves it as it was. *)
Theorem countdown_invariant (e : Engine) (c : Command) :
  Reachable positiveDurations e ->
  admissible positiveDurations c ->
  let r := remainingTime (timer e) in
  let e' := exec c e in
  0 <= r <= totalTime (timer e)
  /\ (r = 0 /\ totalTime (timer e) = 0 -> state (timer e) = Idle)
  /\ (state (timer e) <> Idle -> 0 < r)
  /\ (isMode (state (timer e)) = true -> remainingTime (timer e') <= r)
  /\ (isMode (state (timer e)) = true ->
      forall h, c = Fire h -> intervalId (timer e) = Some h ->
                remainingTime (timer e') < r)
  /\ (state (timer e) = Paused -> state (timer e') = Paused ->
      remainingTime (timer e') = r)
  /\ (state (timer e) = Paused -> c <> Stop -> c <> Reset ->
      remainingTime (timer e') = r)
  /\ (r < remainingTime (timer e') ->
      state (timer e) = Idle
      /\ exists m, c = Start m /\ isMode m = true /\ state (timer e') = m
                   /\ remainingTime (timer e') = totalTime (timer e'))
  /\ remainingTime (timer (exec Resume (exec Pause e))) = r.
Proof.
  intros Hr Hc r e'. subst r e'.
  pose proof (Reachable_Sound _ e Hr) as HS.
  pose proof (Reachable_Timed e Hr) as HT.
  pose proof (remaining_after e c HS HT) as Hstep. cbn zeta in Hstep.
  assert (Hpos : state (timer e) <> Idle -> 0 < remainingTime (timer e))
    by (intros Hn; apply (proj2 HT Hn)).
  assert (Hb : 0 <= remainingTime (timer e) <= totalTime (timer e)).
  { destruct (TimerState_eqb_spec (state (timer e)) Idle) as [Hi|Hn].
    - destruct HS as [_ Hs]. rewrite Hi in Hs. lia.
    - pose proof (proj2 HT Hn). lia. }
  assert (Hrun : isMode (state (timer e)) = true -> state (timer e) <> Idle)
    by (intros Hm Hi; now rewrite Hi in Hm).
  assert (Hpa : state (timer e) = Paused -> state (timer e) <> Idle)
    by congruence.
  split; [exact Hb|].
  split. { intros [Hz _].
    destruct (TimerState_eqb_spec (state (timer e)) Idle) as [|Hn];
      [assumption | specialize (Hpos Hn); lia]. }
  split; [exact Hpos|].
  split. { intros Hm. specialize (Hpos (Hrun Hm)).
    destruct c; cbv beta iota in Hstep.
    - destruct (isMode st); [|rewrite Hstep; lia].
      destruct Hstep as [_ [-> | (Hi & _)]]; [lia | now elim (Hrun Hm)].
    - lia.
    - destruct Hstep; lia.
    - destruct Hstep; lia.
    - destruct Hstep; lia.
    - lia.
    - destruct (existsb (Pos.eqb h) (intervals (window e)));
        [|rewrite Hstep; lia].
      destruct Hstep as [_ [[-> _] | ->]]; lia. }
  split. { intros Hm h -> Hid. specialize (Hpos (Hrun Hm)).
    cbn in Hstep. destruct HS as [Ht _]. rewrite Hid in Ht.
    rewrite Ht in Hstep. cbn in Hstep. rewrite Pos.eqb_refl in Hstep.
    cbn in Hstep. destruct Hstep as [_ [[-> _] | ->]]; lia. }
  assert (Hpaused : state (timer e) = Paused ->
            (c = Stop \/ c = Reset)
            \/ (remainingTime (timer (exec c e)) = remainingTime (timer e)
                /\ (forall m, c = Start m -> isMode m = true ->
                               state (timer (exec c e)) = m))).
  { intros Hp. specialize (Hpos (Hpa Hp)). destruct c; cbv beta iota in Hstep; auto.
    - right. destruct (isMode st) eqn:Hm.
      + destruct Hstep as [Hst [Hs | (Hi & _)]]; [|congruence].
        split; [assumption | intros m [= <-] _; assumption].
      + rewrite Hstep. split; [reflexivity | intros m [= <-]; congruence].
    - right. split; [assumption | discriminate].
    - right. split; [tauto | discriminate].
    - right. split; [assumption | discriminate].
    - right. split; [|discriminate].
      destruct (existsb (Pos.eqb h) (intervals (window e)));
        [|now rewrite Hstep].
      destruct Hstep as [Hm _]. rewrite Hp in Hm. discriminate. }
  split. { intros Hp Hp'. destruct (Hpaused Hp) as [[-> | ->] | [Hs _]];
      [| | exact Hs]; cbv beta iota in Hstep; destruct Hstep as [_ Hi]; congruence. }
  split. { intros Hp Hns Hnr. destruct (Hpaused Hp) as [[-> | ->] | [Hs _]];
      [contradiction | contradiction | exact Hs]. }
  split. { intros Hlt. destruct c; cbv beta iota in Hstep.
    - destruct (isMode st) eqn:Hm; [|rewrite Hstep in Hlt; lia].
      destruct Hstep as [Hst [Hs | (Hi & Htot & _)]]; [lia|].
      split; [assumption|]. now exists st.
    - lia.
    - destruct Hstep; lia.
    - destruct Hstep; lia.
    - destruct Hstep; lia.
    - lia.
    - destruct (existsb (Pos.eqb h) (intervals (window e)));
        [|rewrite Hstep in Hlt; lia].
      destruct Hstep as [_ [[Hz _] | Hd]]; lia. }
  pose proof (remaining_after e Pause HS HT) as H1. cbn in H1.
  assert (HS1 : Sound (exec Pause e)) by now apply Sound_exec.
  assert (HT1 : Timed (exec Pause e)) by (apply Timed_exec; [exact I | assumption | assumption]).
  pose proof (remaining_after (exec Pause e) Resume HS1 HT1) as H2. cbn in H2.
  destruct H2 as [H2 _]. congruence.
Qed.
Lemma countdown_invariant_witness :
  let e := execAll [Start Work; Fire 1%positive; Pause]
                   (boot DEFAULT_SETTINGS) in
  let c := Resume in
  let r := remainingTime (timer e) in
  let e' := exec c e in
  0 <= r <= totalTime (timer e)
  /\ (r = 0 /\ totalTime (timer e) = 0 -> state (timer e) = Idle)
  /\ (state (timer e) <> Idle -> 0 < r)
  /\ (isMode (state (timer e)) = true -> remainingTime (timer e') <= r)
  /\ (isMode (state (timer e)) = true ->
      forall h, c = Fire h -> intervalId (timer e) = Some h ->
                remainingTime (timer e') < r)
  /\ (state (timer e) = Paused -> state (timer e') = Paused ->
      remainingTime (timer e') = r)
  /\ (state (timer e) = Paused -> c <> Stop -> c <> Reset ->
      remainingTime (timer e') = r)
  /\ (r < remainingTime (timer e') ->
      state (timer e) = Idle
      /\ exists m, c = Start m /\ isMode m = true /\ state (timer e') = m
                   /\ remainingTime (timer e') = totalTime (timer e'))
  /\ remainingTime (timer (exec Resume (exec Pause e))) = r.
Proof.
  apply (countdown_invariant
           (execAll [Start Work; Fire 1%positive; Pause]
                    (boot DEFAULT_SETTINGS)) Resume).
  - apply Reachable_execAll.
    + apply reach_boot. unfold positiveDurations. cbn. lia.
    + repeat constructor.
  - exact I.
Defined.

End EngineClaims.


(** * The plugin: what its handlers do *)

Section PluginEquations.

Import Timer Plugin.

Local Ltac unfold_plugin :=
  unfold step, execState, handle, handleCycleModeClick,
    handlePauseResumeClick, handleResetClick, pieButtonClick,
    autoStartCallback, autoDismissCallback, acknowledgeSessionComplete,
    onTimerComplete, advanceToNextMode, onTimerCompletion,
    settingChanged, saveSettings, onunload, refreshHeaderButton,
    removeHeaderButton, handleDocumentClick,
    timer_start, timer_pause, timer_resume, timer_stop, timer_reset,
    timer_fire, getModeText, Notice, setTimeout, updateUI,
    readThis, writeThis, isRunning, getState, getRemainingTime,
    getTotalTime, start, stop, pause, resume, reset, fire,
    intervalCallback, updateSettings, readTimer, writeTimer,
    setInterval, clearInterval.

(** Acknowledgment: the flag is cleared, and the mode moves on unless the
    timer is running. *)
Lemma acknowledge_eq (p : Plugin) :
  execState acknowledgeSessionComplete p =
  {| timer := timer p; window := window p;
     owner := if isMode (state (timer p))
              then with_isSessionComplete false (owner p)
              else with_currentMode (nextMode (owner p))
                     (with_isSessionComplete false (owner p)) |}.
Proof.
  destruct p as [[s pp r t i cfg] w o]. unfold_plugin. cbn.
  destruct s; reflexivity.
Qed.

(** The mode label: rejected unless the timer is idle; acknowledges when
    a session awaits it; cycles otherwise. *)
Lemma cycle_click_eq (p : Plugin) :
  step ClickMode p =
  if negb (TimerState_eqb (state (timer p)) Idle) then
    {| timer := timer p; window := window p;
       owner := with_notices
                  (notices (owner p) ++ ["Reset the timer to switch modes"%string])
                  (owner p) |}
  else if isSessionComplete (owner p) then
    execState acknowledgeSessionComplete p
  else
    let m := match currentMode (owner p) with
             | Work => ShortBreak
             | ShortBreak => LongBreak
             | LongBreak => Work
             | other => other
             end in
    {| timer := timer p; window := window p;
       owner := with_notices
                  (notices (owner p)
                   ++ [("Switched to " ++ modeText m ++ " mode")%string])
                  (with_currentMode m (owner p)) |}.
Proof.
  rewrite acknowledge_eq.
  destruct p as [[s pp r t i cfg] w [cm cp nm sc pin pe no]].
  unfold_plugin. cbn.
  destruct s; try reflexivity. cbn.
  destruct sc; [reflexivity|]. destruct cm; reflexivity.
Qed.

(** The closure of the grace timer does nothing unless the session still
    awaits acknowledgment. *)
Lemma autoStart_guarded (p : Plugin) :
  isSessionComplete (owner p) = false -> execState autoStartCallback p = p.
Proof.
  destruct p as [t w [cm cp nm sc pin pe no]]. cbn. intros ->. reflexivity.
Qed.

(** The closure of the expiry timer is plain acknowledgment: it does not
    look at the flag. *)
Lemma autoDismiss_unguarded (p : Plugin) :
  isMode (state (timer p)) = false ->
  currentMode (owner (execState autoDismissCallback p)) = nextMode (owner p).
Proof.
  intros Hm. unfold autoDismissCallback. rewrite acknowledge_eq. cbn.
  now rewrite Hm.
Qed.

(** The completion callback. *)
Lemma onTimerComplete_eq (p : Plugin) :
  execState onTimerComplete p =
  let o := owner p in
  let cfg := settings (timer p) in
  let work := TimerState_eqb (currentMode o) Work in
  let count := if work then completedPomodoros o + 1 else completedPomodoros o in
  let next := if work
              then if remIsZero count (longBreakInterval cfg)
                   then LongBreak else ShortBreak
              else Work in
  let auto := (work && autoStartBreaks cfg)
              || (negb work && autoStartPomodoros cfg) in
  {| timer := timer p; window := window p;
     owner := {| currentMode := currentMode o;
                 completedPomodoros := count;
                 nextMode := next;
                 isSessionComplete := true;
                 isPanelPinned := isPanelPinned o;
                 pending := pending o
                            ++ (if auto then [AutoStartNext] else [])
                            ++ [AutoDismiss];
                 notices := notices o
                            ++ [(modeText (currentMode o)
                                 ++ " session completed!")%string] |} |}.
Proof.
  destruct p as [[s pp r t i cfg] w [cm cp nm sc pin pe no]].
  unfold_plugin. cbn.
  destruct cm; cbn;
    try (destruct (remIsZero (cp + 1) (longBreakInterval cfg)); cbn);
    try (destruct (autoStartBreaks cfg); cbn);
    try (destruct (autoStartPomodoros cfg); cbn);
    rewrite <- ?app_assoc; reflexivity.
Qed.

(** The interval callback as the plugin's timer runs it: on the last tick
    the timer is stopped first and the completion callback runs once. *)
Lemma timer_fire_eq (p : Plugin) (h : positive) :
  step (IntervalFires h) p =
  if existsb (Pos.eqb h) (intervals (window p)) then
    let r := remainingTime (timer p) - 1 in
    if r <=? 0 then
      execState onTimerComplete
        {| timer := halted (timer p);
           window := clearedOf (timer p) (window p);
           owner := owner p |}
    else
      {| timer := with_remainingTime r (timer p); window := window p;
         owner := owner p |}
  else p.
Proof.
  destruct (existsb (Pos.eqb h) (intervals (window p))) eqn:Hh.
  - cbn zeta. destruct (remainingTime (timer p) - 1 <=? 0) eqn:Hr.
    + rewrite onTimerComplete_eq.
      destruct p as [[s pp r t i cfg] [n l] [cm cp nm sc pin pe no]].
      cbn in Hh, Hr. unfold_plugin. cbn. rewrite Hh. cbn. rewrite Hr.
      destruct i; cbn;
        (destruct cm; cbn;
         try (destruct (remIsZero (cp + 1) (longBreakInterval cfg)); cbn);
         try (destruct (autoStartBreaks cfg); cbn);
         try (destruct (autoStartPomodoros cfg); cbn);
         rewrite <- ?app_assoc; reflexivity).
    + destruct p as [[s pp r t i cfg] [n l] o].
      cbn in Hh, Hr. unfold_plugin. cbn. rewrite Hh. cbn. rewrite Hr.
      reflexivity.
  - destruct p as [[s pp r t i cfg] [n l] o].
    cbn in Hh. unfold_plugin. cbn. rewrite Hh. reflexivity.
Qed.

(** Reset: the timer is stopped and the flag cleared; nothing else. *)
Lemma reset_click_eq (p : Plugin) :
  step RightClickTime p =
  {| timer := halted (timer p);
     window := clearedOf (timer p) (window p);
     owner := with_isSessionComplete false (owner p) |}.
Proof.
  destruct p as [[s pp r t i cfg] [n l] o].
  unfold_plugin. cbn. destruct i; reflexivity.
Qed.

(** Unloading: the header button goes, and the pin with it; then the
    timer is stopped. *)
Lemma unload_eq (p : Plugin) :
  step Unload p =
  {| timer := halted (timer p);
     window := clearedOf (timer p) (window p);
     owner := with_isPanelPinned false (owner p) |}.
Proof.
  destruct p as [[s pp r t i cfg] [n l] o].
  unfold_plugin. cbn. destruct i; reflexivity.
Qed.

(** A change of the active leaf unpins the panel and does nothing else. *)
Lemma leaf_change_eq (p : Plugin) :
  step LeafChange p =
  {| timer := timer p; window := window p;
     owner := with_isPanelPinned false (owner p) |}.
Proof.
  destruct p as [t w o]. unfold_plugin. reflexivity.
Qed.

(** A click in the document unpins a pinned panel when it lands outside
    the container, and does nothing otherwise. *)
Lemma document_click_eq (outside : bool) (p : Plugin) :
  step (DocumentClick outside) p =
  if isPanelPinned (owner p) && outside
  then {| timer := timer p; window := window p;
          owner := with_isPanelPinned false (owner p) |}
  else p.
Proof.
  destruct p as [t w o]. unfold_plugin. cbn.
  destruct (isPanelPinned o), outside; reflexivity.
Qed.

End PluginEquations.

(** * What the events leave alone *)

Section Keeping.

Import Timer Plugin.

Lemma keeps_ret {W A X} (f : Sys W -> X) (a : A) :
  keeps f (ret a : Eff W A).
Proof. intros s. reflexivity. Qed.

Lemma keeps_bind {W A B X} (f : Sys W -> X) (m : Eff W A) (k : A -> Eff W B) :
  keeps f m -> (forall a, keeps f (k a)) -> keeps f (x <- m ;; k x).
Proof.
  intros Hm Hk s. cbn. specialize (Hm s).
  destruct (runState m s) as [a s1]. cbn in Hm. rewrite <- Hm. apply Hk.
Qed.

Lemma keeps_get {W X} (f : Sys W -> X) : keeps f (get : Eff W (Sys W)).
Proof. intros s. reflexivity. Qed.

Lemma keeps_readTimer {W A X} (f : Sys W -> X) (g : PomoTimer -> A) :
  keeps f (readTimer g : Eff W A).
Proof. intros s. reflexivity. Qed.

Lemma keeps_writeTimer {W X} (f : Sys W -> X) (g : PomoTimer -> PomoTimer) :
  (forall s, f {| timer := g (timer s); window := window s;
                  owner := owner s |} = f s) ->
  keeps f (writeTimer g : Eff W unit).
Proof. intros Hg s. apply Hg. Qed.

Lemma keeps_setInterval {W X} (f : Sys W -> X) :
  settingsAndOwnerOnly f -> keeps f (setInterval : Eff W positive).
Proof. intros Hf s. apply Hf; reflexivity. Qed.

Lemma keeps_clearInterval {W X} (f : Sys W -> X) h :
  settingsAndOwnerOnly f -> keeps f (clearInterval h : Eff W unit).
Proof. intros Hf s. apply Hf; reflexivity. Qed.

Lemma keeps_readThis {A X} (f : Plugin -> X) (g : Fields -> A) :
  keeps f (readThis g).
Proof. intros s. reflexivity. Qed.

Lemma keeps_writeThis {X} (f : Plugin -> X) (g : Fields -> Fields) :
  (forall s, f {| timer := timer s; window := window s;
                  owner := g (owner s) |} = f s) ->
  keeps f (writeThis g).
Proof. intros Hg s. apply Hg. Qed.

Lemma sessionLog_local : settingsAndOwnerOnly sessionLog.
Proof. intros s s' Hs _. unfold sessionLog. now rewrite Hs. Qed.

Lemma pomodoroCount_local : settingsAndOwnerOnly pomodoroCount.
Proof. intros s s' _ Ho. unfold pomodoroCount. now rewrite Ho. Qed.

Create HintDb keeps.

Hint Resolve sessionLog_local pomodoroCount_local : keeps.

(** One step through the syntax of a method body. *)
Local Ltac keeps_side :=
  intros ?;
  first [ reflexivity
        | match goal with
          | H : settingsAndOwnerOnly _ |- _ => apply H; reflexivity
          end ].

Local Ltac keeps_step :=
  lazymatch goal with
  | |- keeps _ (ret _) => apply keeps_ret
  | |- keeps _ (bind _ _) => apply keeps_bind; [|intros ?]
  | |- keeps _ get => apply keeps_get
  | |- keeps _ (readTimer _) => apply keeps_readTimer
  | |- keeps _ (writeTimer _) => apply keeps_writeTimer; keeps_side
  | |- keeps _ (readThis _) => apply keeps_readThis
  | |- keeps _ (writeThis _) => apply keeps_writeThis; keeps_side
  | |- keeps _ setInterval => apply keeps_setInterval; solve [auto with keeps]
  | |- keeps _ (clearInterval _) =>
      apply keeps_clearInterval; solve [auto with keeps]
  | |- keeps _ (if ?b then _ else _) => destruct b
  | |- keeps _ (match ?x with _ => _ end) => destruct x
  | |- keeps _ _ => solve [auto with keeps]
  end.

Local Ltac keeps := repeat keeps_step.

(** The engine keeps what its callbacks keep, as long as the observation
    does not look at the countdown. *)
Section EngineKeeps.

Context {W X : Type}.
Variable f : Sys W -> X.
Variable onTick : Z -> Z -> Eff W unit.
Variable onStateChange : TimerState -> Eff W unit.
Variable onTimerComplete : Eff W unit.
Hypothesis f_local : settingsAndOwnerOnly f.
Hypothesis onTick_keeps : forall r t, keeps f (onTick r t).

Lemma keeps_stop : keeps f (stop onTick).
Proof. unfold stop. keeps. Qed.

Lemma keeps_start st : keeps f (start onTick st).
Proof. unfold start. keeps. Qed.

Lemma keeps_pause : keeps f (pause onTick).
Proof. unfold pause. keeps. Qed.

Lemma keeps_resume : keeps f (resume onTick).
Proof. unfold resume. keeps. apply keeps_start. Qed.

Lemma keeps_reset : keeps f (reset onTick).
Proof. unfold reset. keeps. apply keeps_stop. Qed.

Lemma keeps_fire h :
  (forall s, keeps f (onStateChange s)) -> keeps f onTimerComplete ->
  keeps f (fire onTick onStateChange onTimerComplete h).
Proof.
  intros HS HC. unfold fire, intervalCallback. keeps. apply keeps_stop.
Qed.

End EngineKeeps.

(** The plugin's pieces, for an observation the timer's methods keep. *)
Section PluginKeeps.

Context {X : Type}.
Variable f : Plugin -> X.
Hypothesis f_local : settingsAndOwnerOnly f.

Lemma keeps_updateUI r t : keeps f (updateUI r t).
Proof. unfold updateUI. keeps. Qed.

Lemma keeps_timer_start m : keeps f (timer_start m).
Proof. apply keeps_start; [assumption | apply keeps_updateUI]. Qed.

Lemma keeps_timer_pause : keeps f timer_pause.
Proof. apply keeps_pause; [assumption | apply keeps_updateUI]. Qed.

Lemma keeps_timer_resume : keeps f timer_resume.
Proof. apply keeps_resume; [assumption | apply keeps_updateUI]. Qed.

Lemma keeps_timer_stop : keeps f timer_stop.
Proof. apply keeps_stop; [assumption | apply keeps_updateUI]. Qed.

Lemma keeps_timer_reset : keeps f timer_reset.
Proof. apply keeps_reset; [assumption | apply keeps_updateUI]. Qed.

(** [saveSettings] hands the timer the settings object it already has. *)
Lemma keeps_saveSettings : keeps f saveSettings.
Proof. intros s. apply f_local; reflexivity. Qed.

End PluginKeeps.

Hint Resolve keeps_updateUI keeps_timer_start keeps_timer_pause
  keeps_timer_resume keeps_timer_stop keeps_timer_reset
  keeps_saveSettings : keeps.

Local Ltac unfold_handlers :=
  unfold handlePauseResumeClick, handleResetClick, handleCycleModeClick,
    pieButtonClick, autoStartCallback, autoDismissCallback,
    acknowledgeSessionComplete, settingChanged, onunload,
    refreshHeaderButton, removeHeaderButton, handleDocumentClick, isRunning,
    getState, getRemainingTime, getTotalTime, getModeText, Notice.

(** None of the handlers of this revision writes to the Session log. *)
Lemma keeps_log_onTimerComplete : keeps sessionLog onTimerComplete.
Proof.
  unfold onTimerComplete, advanceToNextMode, getModeText, Notice, setTimeout.
  keeps.
Qed.

Lemma keeps_log_handle ev : keeps sessionLog (handle ev).
Proof.
  destruct ev; cbn [handle]; unfold_handlers; keeps.
  apply keeps_fire;
    [ apply sessionLog_local | apply keeps_updateUI
    | intros s; apply keeps_ret | apply keeps_log_onTimerComplete ].
Qed.

Lemma step_keeps_log ev p : sessionLog (step ev p) = sessionLog p.
Proof. apply (keeps_log_handle ev p). Qed.

Lemma run_keeps_log evs p : sessionLog (run evs p) = sessionLog p.
Proof.
  revert p. induction evs as [|ev evs IH]; intros p; [reflexivity|].
  cbn. rewrite IH. apply step_keeps_log.
Qed.

(** Nothing but an interval callback changes the count of pomodoros. *)
Lemma keeps_count_handle ev :
  (forall h, ev <> IntervalFires h) -> keeps pomodoroCount (handle ev).
Proof.
  intros Hev. destruct ev; cbn [handle]; unfold_handlers; keeps.
  now elim (Hev h).
Qed.

(** The count moves on the last tick of an interval the plugin holds to
    be a Work interval, by one, and at no other time. *)
Lemma count_moves_on_work_completion ev p :
  pomodoroCount (step ev p) = pomodoroCount p
  \/ (exists h, ev = IntervalFires h
                /\ In h (intervals (window p))
                /\ remainingTime (timer p) <= 1
                /\ currentMode (owner p) = Work
                /\ pomodoroCount (step ev p) = pomodoroCount p + 1).
Proof.
  destruct ev; try (left; apply keeps_count_handle; discriminate).
  rewrite timer_fire_eq.
  destruct (existsb (Pos.eqb h) (intervals (window p))) eqn:Hh; [|now left].
  cbn zeta.
  destruct (Z.leb_spec (remainingTime (timer p) - 1) 0) as [Hr|Hr]; [|now left].
  rewrite onTimerComplete_eq. unfold pomodoroCount. cbn.
  destruct (TimerState_eqb_spec (currentMode (owner p)) Work) as [Hw|Hw];
    [right | now left].
  exists h. apply existsb_eqb_In in Hh. repeat split; auto. lia.
Qed.

End Keeping.

(** * The plugin: the specification's statements *)

Section PluginClaims.

Import Timer Plugin.

(** C6, as stated, fails: with auto-start enabled, once the grace timer
    has started the break the session still awaits acknowledgment, and a
    click on the mode label is turned down with the notice; the flag stays
    set. *)
Lemma cycle_click_rejected_while_awaiting :
  let p := run (ChangeSetting (SetAutoStartBreaks true) :: ClickTime
                :: repeat (IntervalFires 1%positive) 1500
                ++ [TimeoutFires AutoStartNext])
               (onload DEFAULT_SETTINGS) in
  let p' := step ClickMode p in
  isSessionComplete (owner p) = true
  /\ state (timer p) = ShortBreak
  /\ isSessionComplete (owner p') = true
  /\ notices (owner p') =
       notices (owner p) ++ ["Reset the timer to switch modes"%string]
  /\ p' <> execState acknowledgeSessionComplete p.
Proof. vm_compute. repeat split. discriminate. Qed.

(** C6, amended: while a session awaits acknowledgment, a click on the
    mode label acknowledges it when the timer is idle (the current mode
    becomes the next mode, the flag is cleared, no notice is shown and the
    mode is not cycled); when the timer is not idle the click is turned
    down with the notice and changes nothing else. *)
Theorem cycle_click_while_awaiting (p : Plugin) :
  isSessionComplete (owner p) = true ->
  (state (timer p) = Idle ->
   step ClickMode p = execState acknowledgeSessionComplete p
   /\ currentMode (owner (step ClickMode p)) = nextMode (owner p)
   /\ isSessionComplete (owner (step ClickMode p)) = false
   /\ notices (owner (step ClickMode p)) = notices (owner p))
  /\ (state (timer p) <> Idle ->
      step ClickMode p =
      {| timer := timer p; window := window p;
         owner := with_notices
                    (notices (owner p)
                     ++ ["Reset the timer to switch modes"%string])
                    (owner p) |}).
Proof.
  intros Hw. split.
  - intros Hi. rewrite cycle_click_eq, Hi, Hw. cbn [TimerState_eqb negb].
    cbv iota. split; [reflexivity|].
    rewrite acknowledge_eq, Hi. cbn. auto.
  - intros Hn. rewrite cycle_click_eq.
    destruct (TimerState_eqb_spec (state (timer p)) Idle);
      [contradiction | reflexivity].
Qed.

Lemma cycle_click_while_awaiting_witness :
  let p := run (ClickTime :: repeat (IntervalFires 1%positive) 1500)
               (onload DEFAULT_SETTINGS) in
  (state (timer p) = Idle ->
   step ClickMode p = execState acknowledgeSessionComplete p
   /\ currentMode (owner (step ClickMode p)) = nextMode (owner p)
   /\ isSessionComplete (owner (step ClickMode p)) = false
   /\ notices (owner (step ClickMode p)) = notices (owner p))
  /\ (state (timer p) <> Idle ->
      step ClickMode p =
      {| timer := timer p; window := window p;
         owner := with_notices
                    (notices (owner p)
                     ++ ["Reset the timer to switch modes"%string])
                    (owner p) |}).
Proof.
  apply (cycle_click_while_awaiting
           (run (ClickTime :: repeat (IntervalFires 1%positive) 1500)
                (onload DEFAULT_SETTINGS))).
  vm_compute. reflexivity.
Defined.

(** C3, evaluated where it breaks: a Work session completes, the user
    acknowledges by hand (the mode moves on to Short Break) and then picks
    Long Break on the mode label.  The expiry timer of that completion is
    still pending; when it goes off, the session no longer awaits
    acknowledgment, and yet the current mode is set to the next mode once
    more, undoing the user's choice. *)
Theorem stale_expiry_sets_mode_again :
  let completed := run (ClickTime :: repeat (IntervalFires 1%positive) 1500)
                       (onload DEFAULT_SETTINGS) in
  let acked := step ClickTime completed in
  let chosen := step ClickMode acked in
  let expired := step (TimeoutFires AutoDismiss) chosen in
  (isSessionComplete (owner completed) = true
   /\ currentMode (owner completed) = Work
   /\ nextMode (owner completed) = ShortBreak
   /\ pending (owner completed) = [AutoDismiss])
  /\ (isSessionComplete (owner acked) = false
      /\ currentMode (owner acked) = ShortBreak)
  /\ (isSessionComplete (owner chosen) = false
      /\ currentMode (owner chosen) = LongBreak
      /\ pending (owner chosen) = [AutoDismiss])
  /\ (currentMode (owner expired) = ShortBreak
      /\ expired <> chosen
      /\ timer expired = timer chosen).
Proof. vm_compute. repeat split. discriminate. Qed.

(** The cadence as the completion callback computes it from the plugin's
    own mode label: with the label on Work the count of completed
    pomodoros goes up by one and the next mode is Long Break exactly when
    the new count is a multiple of the long-break interval, Short Break
    otherwise; with the label on a break the next mode is Work and the
    count stays; no other event moves the count.  With an interval of 4,
    eight Work sessions in a row, each followed by its break, give Short,
    Short, Short, Long, Short, Short, Short, Long. *)
Lemma long_break_cadence :
  (forall p : Plugin,
      currentMode (owner p) = Work ->
      let p' := execState onTimerComplete p in
      let n := completedPomodoros (owner p) + 1 in
      completedPomodoros (owner p') = n
      /\ nextMode (owner p') =
           (if remIsZero n (longBreakInterval (settings (timer p)))
            then LongBreak else ShortBreak)
      /\ (longBreakInterval (settings (timer p)) = 4 ->
          (nextMode (owner p') = LongBreak <-> n mod 4 = 0)
          /\ (nextMode (owner p') = ShortBreak <-> n mod 4 <> 0)))
  /\ (forall p : Plugin,
         currentMode (owner p) <> Work ->
         let p' := execState onTimerComplete p in
         completedPomodoros (owner p') = completedPomodoros (owner p)
         /\ nextMode (owner p') = Work)
  /\ (forall (ev : Event) (p : Plugin),
         pomodoroCount (step ev p) = pomodoroCount p
         \/ (exists h, ev = IntervalFires h
                       /\ In h (intervals (window p))
                       /\ remainingTime (timer p) <= 1
                       /\ currentMode (owner p) = Work
                       /\ pomodoroCount (step ev p) = pomodoroCount p + 1))
  /\ (let result := workSessions 8 (onload DEFAULT_SETTINGS) in
      fst result = [ShortBreak; ShortBreak; ShortBreak; LongBreak;
                    ShortBreak; ShortBreak; ShortBreak; LongBreak]
      /\ completedPomodoros (owner (snd result)) = 8).
Proof.
  split; [|split; [|split]].
  - intros p Hw p' n. subst p' n. rewrite onTimerComplete_eq. cbn.
    rewrite Hw. cbn. split; [reflexivity|]. split; [reflexivity|].
    intros ->. unfold remIsZero. cbn [Z.eqb].
    set (n := completedPomodoros (owner p) + 1).
    assert (Hrem : Z.rem n 4 = 0 <-> n mod 4 = 0).
    { rewrite Z.rem_divide, Z.mod_divide by lia. reflexivity. }
    destruct (Z.eqb_spec (Z.rem n 4) 0) as [Hz|Hz]; split; split;
      try discriminate; try tauto; intros H; exfalso; tauto.
  - intros p Hn p'. subst p'. rewrite onTimerComplete_eq. cbn.
    destruct (currentMode (owner p)); try contradiction; split; reflexivity.
  - apply count_moves_on_work_completion.
  - vm_compute. split; reflexivity.
Qed.

(** C5, evaluated where it breaks: a Work session completes and is
    counted; the user resets, starts the next Work session and pauses it.
    The expiry timer of the first completion is still pending; when it
    goes off on the paused timer the mode label moves on to Short Break
    although no session awaits acknowledgment.  The user resumes, the
    Work interval runs to zero, and its completion is handled as that of
    a break: the count stays at 1 and the next mode is Work, where a
    second completed Work session calls for a count of 2 and a Short
    Break. *)
Theorem stale_expiry_drops_a_work_session :
  let first := run (ClickTime :: repeat (IntervalFires 1%positive) 1500)
                   (onload DEFAULT_SETTINGS) in
  let again := run [RightClickTime; ClickTime; ClickTime] first in
  let expired := step (TimeoutFires AutoDismiss) again in
  let resumed := step ClickTime expired in
  let second := run (repeat (IntervalFires 3%positive) 1500) resumed in
  (completedPomodoros (owner first) = 1
   /\ nextMode (owner first) = ShortBreak
   /\ pending (owner first) = [AutoDismiss])
  /\ (state (timer again) = Paused
      /\ prePauseState (timer again) = Work
      /\ currentMode (owner again) = Work
      /\ isSessionComplete (owner again) = false
      /\ pending (owner again) = [AutoDismiss])
  /\ (currentMode (owner expired) = ShortBreak
      /\ timer expired = timer again)
  /\ (state (timer resumed) = Work
      /\ remainingTime (timer resumed) = 1500
      /\ totalTime (timer resumed) = 1500
      /\ intervals (window resumed) = [3%positive])
  /\ (state (timer second) = Idle
      /\ isSessionComplete (owner second) = true
      /\ completedPomodoros (owner second) = 1
      /\ nextMode (owner second) = Work
      /\ notices (owner second) =
           ["Focus session completed!"%string;
            "Short Break session completed!"%string]
      /\ completedPomodoros (owner second) <> 2
      /\ nextMode (owner second) <> ShortBreak).
Proof. vm_compute. repeat split; discriminate. Qed.




End PluginClaims.

(** * Further properties of the engine *)

Section EngineFurther.

Import Timer Recorded.

(** X1: a second [pause()] in a row does nothing at all, and [pause()]
    does nothing unless the timer is running: no field changes, the
    host's intervals are left alone, no callback runs. *)
Theorem pause_is_idempotent (e : Engine) :
  exec Pause (exec Pause e) = exec Pause e
  /\ (isMode (state (timer e)) = false -> exec Pause e = e)
  /\ (intervalId (timer e) = None -> exec Pause e = e).
Proof.
  split; [|split].
  - rewrite (pause_eq e).
    destruct (intervalId (timer e)) as [h|] eqn:Hi.
    + destruct (isMode (state (timer e))) eqn:Hm.
      * rewrite pause_eq. reflexivity.
      * rewrite pause_eq, Hi, Hm. reflexivity.
    + rewrite pause_eq, Hi. reflexivity.
  - intros Hm. rewrite pause_eq, Hm. now destruct (intervalId (timer e)).
  - intros Hi. rewrite pause_eq, Hi. reflexivity.
Qed.

(** What [Sound] says, spelled out. *)
Lemma Sound_spelled_out (e : Engine) :
  Sound e ->
  intervals (window e) =
    match intervalId (timer e) with Some h => [h] | None => [] end
  /\ (isMode (state (timer e)) = true <-> intervalId (timer e) <> None)
  /\ (state (timer e) = Idle ->
      remainingTime (timer e) = 0 /\ totalTime (timer e) = 0)
  /\ (state (timer e) = Paused -> isMode (prePauseState (timer e)) = true).
Proof.
  intros [Ht Hs].
  split; [exact Ht|]. destruct (state (timer e)); cbn.
  all: repeat split; try discriminate; try tauto.
  all: try (destruct Hs as (H0 & H1 & Hi); congruence).
  all: try (destruct Hs as [Hi Hp]; congruence).
Qed.

(** X2: however the engine was driven, the host never holds an interval
    the timer has lost track of: its table is the timer's own interval or
    empty, the interval is armed exactly while the state is a mode, an
    idle timer shows zero time, and a paused timer remembers a mode. *)
Theorem no_interval_is_leaked (e : Engine) :
  Reachable anySettings e ->
  intervals (window e) =
    match intervalId (timer e) with Some h => [h] | None => [] end
  /\ (isMode (state (timer e)) = true <-> intervalId (timer e) <> None)
  /\ (state (timer e) = Idle ->
      remainingTime (timer e) = 0 /\ totalTime (timer e) = 0)
  /\ (state (timer e) = Paused -> isMode (prePauseState (timer e)) = true).
Proof.
  intros Hr. apply Sound_spelled_out. now apply Reachable_Sound with anySettings.
Qed.

Lemma no_interval_is_leaked_witness :
  let e := execAll [Start Work; Fire 1; Start LongBreak; Pause;
                    UpdateSettings DEFAULT_SETTINGS; Resume; Fire 2; Fire 3]
                   (boot DEFAULT_SETTINGS) in
  intervals (window e) =
    match intervalId (timer e) with Some h => [h] | None => [] end
  /\ (isMode (state (timer e)) = true <-> intervalId (timer e) <> None)
  /\ (state (timer e) = Idle ->
      remainingTime (timer e) = 0 /\ totalTime (timer e) = 0)
  /\ (state (timer e) = Paused -> isMode (prePauseState (timer e)) = true).
Proof.
  apply (no_interval_is_leaked
           (execAll [Start Work; Fire 1; Start LongBreak; Pause;
                     UpdateSettings DEFAULT_SETTINGS; Resume; Fire 2; Fire 3]
                    (boot DEFAULT_SETTINGS))).
  apply Reachable_execAll.
  - apply reach_boot. exact I.
  - apply Forall_forall. intros c _. apply admissible_any.
Defined.

(** Ticks that leave time: each takes one second off and reports it. *)
Lemma ticks_before_the_end (n : nat) : forall (e : Engine) (h : positive),
  In h (intervals (window e)) ->
  Z.of_nat n < remainingTime (timer e) ->
  execAll (repeat (Fire h) n) e =
  {| timer := with_remainingTime (remainingTime (timer e) - Z.of_nat n)
                                 (timer e);
     window := window e;
     owner := owner e
              ++ map (fun k => OnTick (remainingTime (timer e) - Z.of_nat k)
                                      (totalTime (timer e)))
                     (seq 1 n) |}.
Proof.
  induction n as [|n IH]; intros e h Hh Hlt.
  - destruct e as [[s p r t i cfg] w log]. cbn.
    rewrite Z.sub_0_r, app_nil_r. reflexivity.
  - cbn [repeat execAll fold_left]. fold (execAll (repeat (Fire h) n)).
    rewrite Nat2Z.inj_succ in *.
    pose proof (proj2 (existsb_eqb_In h _) Hh) as Hl.
    assert (Hz : (remainingTime (timer e) - 1 <=? 0) = false)
      by (apply Z.leb_gt; lia).
    rewrite fire_eq, Hl. cbn zeta. rewrite Hz.
    rewrite IH by (cbn; first [assumption | lia]).
    unfold with_remainingTime.
    cbn [timer window owner remainingTime totalTime
         state prePauseState intervalId settings].
    f_equal.
    + f_equal. lia.
    + rewrite <- app_assoc. f_equal. cbn [app seq map]. f_equal.
      rewrite <- (seq_shift n 1), map_map. apply map_ext. intros k.
      rewrite Nat2Z.inj_succ. f_equal. lia.
Qed.

Lemma completions_app (l x : list Notification) :
  filter isCompletion (l ++ x) = filter isCompletion l ++ filter isCompletion x.
Proof. apply filter_app. Qed.

Lemma ticks_are_no_completion (f : nat -> Z) (t : Z) (ks : list nat) :
  filter isCompletion (map (fun k => OnTick (f k) t) ks) = [].
Proof. induction ks as [|k ks IH]; [reflexivity | exact IH]. Qed.

(** X3: an interval started from idle with a positive duration of [d]
    seconds runs for exactly [d] ticks: after [n < d] ticks the timer is
    still in its mode with [d - n] seconds left of [d] and has announced
    no completion; the [d]-th tick leaves it idle with the interval
    cleared and announces exactly one. *)
Theorem countdown_takes_its_duration (e : Engine) (m : TimerState) (n : nat) :
  Reachable anySettings e ->
  state (timer e) = Idle ->
  isMode m = true ->
  let d := minutesOf (settings (timer e)) m * 60 in
  let h := nextHandle (window e) in
  let after k := execAll (Start m :: repeat (Fire h) k) e in
  let completions s := List.length (filter isCompletion (owner s)) in
  (Z.of_nat n < d ->
   state (timer (after n)) = m
   /\ remainingTime (timer (after n)) = d - Z.of_nat n
   /\ totalTime (timer (after n)) = d
   /\ intervals (window (after n)) = [h]
   /\ completions (after n) = completions e)
  /\ (0 < d -> Z.of_nat n = d ->
      state (timer (after n)) = Idle
      /\ remainingTime (timer (after n)) = 0
      /\ intervals (window (after n)) = []
      /\ completions (after n) = S (completions e)).
Proof.
  intros Hr Hi Hm d h after completions.
  assert (Hstart : exec (Start m) e =
            {| timer := {| state := m; prePauseState := prePauseState (timer e);
                           remainingTime := d; totalTime := d;
                           intervalId := Some h;
                           settings := settings (timer e) |};
               window := {| nextHandle := Pos.succ h; intervals := [h] |};
               owner := owner e ++ [OnTick d d] |})
    by apply (fresh_start _ e m Hr Hi Hm).
  assert (Hbefore : forall k, Z.of_nat k < d ->
            after k =
            {| timer := {| state := m; prePauseState := prePauseState (timer e);
                           remainingTime := d - Z.of_nat k; totalTime := d;
                           intervalId := Some h;
                           settings := settings (timer e) |};
               window := {| nextHandle := Pos.succ h; intervals := [h] |};
               owner := (owner e ++ [OnTick d d])
                        ++ map (fun j => OnTick (d - Z.of_nat j) d) (seq 1 k) |}).
  { intros k Hk. unfold after. cbn [execAll fold_left].
    fold (execAll (repeat (Fire h) k)). rewrite Hstart.
    rewrite ticks_before_the_end by (cbn; first [now left | exact Hk]).
    reflexivity. }
  split.
  - intros Hlt. rewrite (Hbefore n Hlt). cbn. repeat split.
    unfold completions. cbn.
    rewrite !completions_app, ticks_are_no_completion. cbn.
    now rewrite !app_nil_r.
  - intros Hd Hn. destruct n as [|n]; [cbn in Hn; lia|].
    assert (Hlast : after (S n) = exec (Fire h) (after n)).
    { unfold after. cbn [execAll fold_left].
      replace (S n) with (n + 1)%nat by lia.
      rewrite repeat_app, fold_left_app. reflexivity. }
    rewrite Hlast, (Hbefore n) by lia.
    rewrite fire_eq. cbn [window intervals existsb]. rewrite Pos.eqb_refl.
    cbn [orb]. cbn zeta. cbn [timer remainingTime].
    assert (Hz : (d - Z.of_nat n - 1 <=? 0) = true) by (apply Z.leb_le; lia).
    rewrite Hz. cbn. destruct (Pos.eq_dec h h); [|contradiction].
    repeat split. unfold completions. cbn.
    rewrite !completions_app, ticks_are_no_completion. cbn.
    rewrite !app_nil_r, length_app. cbn. lia.
Qed.

Lemma countdown_takes_its_duration_witness :
  let e := boot DEFAULT_SETTINGS in
  let d := minutesOf (settings (timer e)) ShortBreak * 60 in
  let h := nextHandle (window e) in
  let after k := execAll (Start ShortBreak :: repeat (Fire h) k) e in
  let completions s := List.length (filter isCompletion (owner s)) in
  (Z.of_nat 300 < d ->
   state (timer (after 300%nat)) = ShortBreak
   /\ remainingTime (timer (after 300%nat)) = d - Z.of_nat 300
   /\ totalTime (timer (after 300%nat)) = d
   /\ intervals (window (after 300%nat)) = [h]
   /\ completions (after 300%nat) = completions e)
  /\ (0 < d -> Z.of_nat 300 = d ->
      state (timer (after 300%nat)) = Idle
      /\ remainingTime (timer (after 300%nat)) = 0
      /\ intervals (window (after 300%nat)) = []
      /\ completions (after 300%nat) = S (completions e)).
Proof.
  apply (countdown_takes_its_duration (boot DEFAULT_SETTINGS) ShortBreak 300).
  - apply reach_boot. exact I.
  - reflexivity.
  - reflexivity.
Defined.

(** X4: a configuration handed over with [updateSettings] is not looked
    at until a duration has to be loaded: pausing, stopping, resetting and
    ticking give the same result whether the settings are replaced before
    or after, and so do [start] and [resume] while time is left.  A
    running interval is therefore never disturbed by a settings change. *)
Theorem settings_wait_for_the_next_start
    (e : Engine) (cfg : PomodoroSettings) (c : Command) :
  readsNoSettings c e = true ->
  exec c (exec (UpdateSettings cfg) e) = exec (UpdateSettings cfg) (exec c e).
Proof.
  intros Hc. rewrite !updateSettings_eq. destruct c; cbn in Hc.
  - apply negb_true_iff in Hc. destruct (isMode st) eqn:Hm.
    + rewrite !(start_mode _ st Hm). cbn. rewrite Hc. reflexivity.
    + rewrite !(start_guarded _ st Hm). reflexivity.
  - rewrite !pause_eq. cbn.
    destruct (intervalId (timer e)); [|reflexivity].
    destruct (isMode (state (timer e))); reflexivity.
  - apply negb_true_iff in Hc. rewrite !resume_eq. cbn.
    destruct (TimerState_eqb (state (timer e)) Paused); [|reflexivity].
    destruct (isMode (prePauseState (timer e))) eqn:Hm.
    + rewrite !(start_mode _ _ Hm). cbn. rewrite Hc. reflexivity.
    + rewrite !(start_guarded _ _ Hm). reflexivity.
  - rewrite !stop_eq. reflexivity.
  - rewrite !reset_eq. reflexivity.
  - discriminate.
  - rewrite !fire_eq. cbn.
    destruct (existsb (Pos.eqb h) (intervals (window e))); [|reflexivity].
    destruct (remainingTime (timer e) - 1 <=? 0); reflexivity.
Qed.

Lemma settings_wait_for_the_next_start_witness :
  let e := execAll [Start Work; Fire 1] (boot DEFAULT_SETTINGS) in
  let cfg := {| workTime := 50; shortBreakTime := 10; longBreakTime := 30;
                longBreakInterval := 2; autoStartBreaks := true;
                autoStartPomodoros := false; showDesktopNotification := false;
                playSound := false; showInStatusBar := false;
                sessions := []; tasks := [] |} in
  exec (Fire 1) (exec (UpdateSettings cfg) e)
  = exec (UpdateSettings cfg) (exec (Fire 1) e).
Proof.
  intros e cfg.
  apply (settings_wait_for_the_next_start e cfg (Fire 1)).
  reflexivity.
Defined.

(** X5: a mode configured with zero or negative minutes is not refused:
    [start] leaves the timer in that mode with no time on the clock, and
    the first tick ends the interval and announces its completion. *)
Theorem empty_interval_completes_at_once (e : Engine) (m : TimerState) :
  Reachable anySettings e ->
  state (timer e) = Idle ->
  isMode m = true ->
  minutesOf (settings (timer e)) m <= 0 ->
  let started := exec (Start m) e in
  let h := nextHandle (window e) in
  state (timer started) = m
  /\ remainingTime (timer started) <= 0
  /\ intervals (window started) = [h]
  /\ state (timer (exec (Fire h) started)) = Idle
  /\ emitted (Fire h) started =
       [OnTick (remainingTime (timer started) - 1) (totalTime (timer started));
        OnTick 0 0; OnTimerComplete; OnStateChange m].
Proof.
  intros Hr Hi Hm Hd started h. subst started h.
  rewrite (fresh_start _ e m Hr Hi Hm). cbn zeta.
  set (d := minutesOf (settings (timer e)) m * 60).
  assert (Hz : (d - 1 <=? 0) = true) by (apply Z.leb_le; subst d; lia).
  repeat split.
  - cbn. subst d. lia.
  - rewrite fire_eq. cbn. rewrite Pos.eqb_refl. cbn. rewrite Hz. reflexivity.
  - apply emitted_app. rewrite fire_eq. cbn. rewrite Pos.eqb_refl. cbn.
    rewrite Hz. reflexivity.
Qed.

Lemma empty_interval_completes_at_once_witness :
  let cfg := {| workTime := 0; shortBreakTime := 5; longBreakTime := 15;
                longBreakInterval := 4; autoStartBreaks := false;
                autoStartPomodoros := false; showDesktopNotification := true;
                playSound := true; showInStatusBar := false;
                sessions := []; tasks := [] |} in
  let e := boot cfg in
  let started := exec (Start Work) e in
  let h := nextHandle (window e) in
  state (timer started) = Work
  /\ remainingTime (timer started) <= 0
  /\ intervals (window started) = [h]
  /\ state (timer (exec (Fire h) started)) = Idle
  /\ emitted (Fire h) started =
       [OnTick (remainingTime (timer started) - 1) (totalTime (timer started));
        OnTick 0 0; OnTimerComplete; OnStateChange Work].
Proof.
  intros cfg.
  apply (empty_interval_completes_at_once (boot cfg) Work).
  - apply reach_boot. exact I.
  - reflexivity.
  - reflexivity.
  - vm_compute. discriminate.
Defined.

Lemma lastTick_app (l x : list Notification) :
  lastTick (l ++ x) =
  fold_left (fun shown n => match n with
                            | OnTick r t => (r, t)
                            | _ => shown
                            end) x (lastTick l).
Proof. apply fold_left_app. Qed.

(** X6: the last tick is never stale.  Whatever the engine was made to
    do, the last time it handed to [onTick] is the time it holds: every
    change of the remaining or the total time is followed by a tick that
    reports it before the command returns. *)
Theorem last_tick_is_the_time (e : Engine) :
  Reachable anySettings e ->
  lastTick (owner e) = (remainingTime (timer e), totalTime (timer e)).
Proof.
  induction 1 as [cfg _ | e c _ IH _]; [reflexivity|].
  destruct c.
  - destruct (isMode st) eqn:Hm.
    + rewrite (start_mode e st Hm). cbn [owner timer remainingTime totalTime].
      rewrite lastTick_app. reflexivity.
    + now rewrite (start_guarded e st Hm).
  - rewrite pause_eq. destruct (intervalId (timer e)); [|assumption].
    destruct (isMode (state (timer e))); [|assumption].
    cbn [owner timer remainingTime totalTime]. rewrite lastTick_app.
    reflexivity.
  - rewrite resume_eq.
    destruct (TimerState_eqb (state (timer e)) Paused); [|assumption].
    destruct (isMode (prePauseState (timer e))) eqn:Hm.
    + rewrite (start_mode e _ Hm). cbn [owner timer remainingTime totalTime].
      rewrite lastTick_app. reflexivity.
    + now rewrite (start_guarded e _ Hm).
  - rewrite stop_eq. cbn [owner timer]. rewrite lastTick_app. reflexivity.
  - rewrite reset_eq. cbn [owner timer]. rewrite lastTick_app. reflexivity.
  - exact IH.
  - rewrite fire_eq.
    destruct (existsb (Pos.eqb h) (intervals (window e))); [|assumption].
    cbn zeta. destruct (remainingTime (timer e) - 1 <=? 0);
      cbn [owner timer]; rewrite lastTick_app; reflexivity.
Qed.

Lemma last_tick_is_the_time_witness :
  let e := execAll [Start Work; Fire 1; Fire 1; Pause; Reset;
                    Start LongBreak; Fire 2]
                   (boot DEFAULT_SETTINGS) in
  lastTick (owner e) = (remainingTime (timer e), totalTime (timer e)).
Proof.
  apply (last_tick_is_the_time
           (execAll [Start Work; Fire 1; Fire 1; Pause; Reset;
                     Start LongBreak; Fire 2]
                    (boot DEFAULT_SETTINGS))).
  apply Reachable_execAll.
  - apply reach_boot. exact I.
  - apply Forall_forall. intros c _. apply admissible_any.
Defined.

(** X7: pausing a running timer and resuming it brings back the mode
    that was paused with the same remaining and total time and the same
    settings; what changes is the interval, re-armed under the host's next
    handle, and the log, which gains one tick per call, both showing the
    unchanged time. *)
Theorem pause_resume_round_trip (e : Engine) :
  Reachable positiveDurations e ->
  isMode (state (timer e)) = true ->
  let e' := exec Resume (exec Pause e) in
  state (timer e') = state (timer e)
  /\ remainingTime (timer e') = remainingTime (timer e)
  /\ totalTime (timer e') = totalTime (timer e)
  /\ settings (timer e') = settings (timer e)
  /\ intervalId (timer e') = Some (nextHandle (window e))
  /\ intervals (window e') = [nextHandle (window e)]
  /\ owner e' = owner e
                ++ [OnTick (remainingTime (timer e)) (totalTime (timer e));
                    OnTick (remainingTime (timer e)) (totalTime (timer e))].
Proof.
  intros Hr Hm e'. subst e'.
  assert (Hn : state (timer e) <> Idle) by (intros Hi; now rewrite Hi in Hm).
  pose proof (active_has_time e Hr Hn) as Ht.
  destruct (running_is_armed _ e Hr Hm) as (h & Hid & Hl).
  assert (Hz : (remainingTime (timer e) =? 0) = false)
    by (apply Z.eqb_neq; lia).
  rewrite resume_eq, !pause_eq, Hid, Hm. cbn [timer state TimerState_eqb].
  cbn [prePauseState]. rewrite (start_mode _ _ Hm).
  cbn. rewrite Hz. unfold clearedOf. cbn. rewrite Hid, Hl. cbn.
  destruct (Pos.eq_dec h h); [|contradiction].
  rewrite <- app_assoc. repeat split.
Qed.

Lemma pause_resume_round_trip_witness :
  let e := execAll [Start ShortBreak; Fire 1; Fire 1] (boot DEFAULT_SETTINGS) in
  let e' := exec Resume (exec Pause e) in
  state (timer e') = state (timer e)
  /\ remainingTime (timer e') = remainingTime (timer e)
  /\ totalTime (timer e') = totalTime (timer e)
  /\ settings (timer e') = settings (timer e)
  /\ intervalId (timer e') = Some (nextHandle (window e))
  /\ intervals (window e') = [nextHandle (window e)]
  /\ owner e' = owner e
                ++ [OnTick (remainingTime (timer e)) (totalTime (timer e));
                    OnTick (remainingTime (timer e)) (totalTime (timer e))].
Proof.
  apply (pause_resume_round_trip
           (execAll [Start ShortBreak; Fire 1; Fire 1] (boot DEFAULT_SETTINGS))).
  - apply Reachable_execAll.
    + apply reach_boot. unfold positiveDurations. cbn. lia.
    + repeat constructor.
  - reflexivity.
Defined.

(** X8: the total of an interval is fixed when it starts: as long as the
    timer does not go idle, no command changes it, a change of settings
    and a [start] with another mode included.  The ring therefore always
    measures progress against the duration the interval began with. *)
Theorem total_is_fixed_for_the_interval (e : Engine) (c : Command) :
  Reachable positiveDurations e ->
  state (timer e) <> Idle ->
  state (timer (exec c e)) <> Idle ->
  totalTime (timer (exec c e)) = totalTime (timer e).
Proof.
  intros Hr Hn Hn'.
  pose proof (active_has_time e Hr Hn) as Ht.
  assert (Hz : (remainingTime (timer e) =? 0) = false)
    by (apply Z.eqb_neq; lia).
  assert (Hstart : forall st, totalTime (timer (exec (Start st) e))
                              = totalTime (timer e)).
  { intros st. destruct (isMode st) eqn:Hm.
    - rewrite (start_mode e st Hm). cbn. now rewrite Hz.
    - now rewrite (start_guarded e st Hm). }
  destruct c.
  - apply Hstart.
  - rewrite pause_eq. destruct (intervalId (timer e)); [|reflexivity].
    destruct (isMode (state (timer e))); reflexivity.
  - rewrite resume_eq.
    destruct (TimerState_eqb (state (timer e)) Paused);
      [apply Hstart | reflexivity].
  - rewrite stop_eq in Hn'. now elim Hn'.
  - rewrite reset_eq in Hn'. now elim Hn'.
  - reflexivity.
  - revert Hn'. rewrite fire_eq.
    destruct (existsb (Pos.eqb h) (intervals (window e))); [|reflexivity].
    cbn zeta. destruct (remainingTime (timer e) - 1 <=? 0);
      [intros Hn'; now elim Hn' | reflexivity].
Qed.

Lemma total_is_fixed_for_the_interval_witness :
  let e := execAll [Start Work; Fire 1] (boot DEFAULT_SETTINGS) in
  totalTime (timer (exec (Start LongBreak) e)) = totalTime (timer e).
Proof.
  apply (total_is_fixed_for_the_interval
           (execAll [Start Work; Fire 1] (boot DEFAULT_SETTINGS))
           (Start LongBreak)).
  - apply Reachable_execAll.
    + apply reach_boot. unfold positiveDurations. cbn. lia.
    + repeat constructor.
  - discriminate.
  - discriminate.
Defined.

(** X18: a timer that is not running never ticks.  Once it is paused or
    stopped (or before it was ever started) no interval of the host, past
    or present, has a callback left: whatever handle fires, nothing
    changes and nothing is reported. *)
Theorem halted_timer_never_ticks (e : Engine) (h : positive) :
  Reachable anySettings e ->
  isMode (state (timer e)) = false ->
  exec (Fire h) e = e
  /\ exec (Fire h) (exec Stop e) = exec Stop e
  /\ exec (Fire h) (exec Pause e) = exec Pause e.
Proof.
  intros Hr Hm.
  assert (Hdead : forall x : Engine,
             Sound x -> isMode (state (timer x)) = false ->
             exec (Fire h) x = x).
  { intros x [Ht Hs] Hx. rewrite fire_eq, Ht.
    destruct (state (timer x)); try discriminate.
    - destruct Hs as [-> _]. reflexivity.
    - destruct Hs as (_ & _ & ->). reflexivity. }
  pose proof (Reachable_Sound _ e Hr) as HS.
  repeat split.
  - now apply Hdead.
  - apply Hdead; [now apply Sound_exec | rewrite stop_eq; reflexivity].
  - apply Hdead; [now apply Sound_exec|].
    rewrite pause_eq. destruct (intervalId (timer e)); [|assumption].
    now rewrite Hm.
Qed.

Lemma halted_timer_never_ticks_witness :
  let e := execAll [Start Work; Fire 1; Pause] (boot DEFAULT_SETTINGS) in
  exec (Fire 1) e = e
  /\ exec (Fire 1) (exec Stop e) = exec Stop e
  /\ exec (Fire 1) (exec Pause e) = exec Pause e.
Proof.
  apply (halted_timer_never_ticks
           (execAll [Start Work; Fire 1; Pause] (boot DEFAULT_SETTINGS)) 1).
  - apply Reachable_execAll.
    + apply reach_boot. exact I.
    + apply Forall_forall. intros c _. apply admissible_any.
  - reflexivity.
Defined.

End EngineFurther.

(** * The timer under any owner *)

Section TimerUnderAnyOwner.

Import Timer Recorded.

Context {W : Type}.
Variable onTick : Z -> Z -> Eff W unit.
Variable onStateChange : TimerState -> Eff W unit.
Variable onTimerComplete : Eff W unit.

(** The callbacks leave the timer and the host's intervals alone. *)
Hypothesis onTick_core : forall r t, keeps core (onTick r t).
Hypothesis onStateChange_core : forall s, keeps core (onStateChange s).
Hypothesis onTimerComplete_core : keeps core onTimerComplete.

Local Ltac unfold_methods :=
  unfold exec, execState, perform, start, stop, pause, resume, reset, fire,
    intervalCallback, stop, updateSettings, readTimer, writeTimer,
    setInterval, clearInterval, Recorded.onTick, Recorded.onStateChange,
    Recorded.onTimerComplete, emit, forget.

(** After a callback, the timer and the table are what they were. *)
Local Ltac after_callback :=
  match goal with
  | |- context [runState (onTick ?r ?t) ?s] =>
      let H := fresh "H" in
      pose proof (onTick_core r t s) as H;
      destruct (runState (onTick r t) s) as [[] [? ? ?]];
      cbn in H; injection H as -> ->
  | |- context [runState (onStateChange ?x) ?s] =>
      let H := fresh "H" in
      pose proof (onStateChange_core x s) as H;
      destruct (runState (onStateChange x) s) as [[] [? ? ?]];
      cbn in H; injection H as -> ->
  | |- context [runState onTimerComplete ?s] =>
      let H := fresh "H" in
      pose proof (onTimerComplete_core s) as H;
      destruct (runState onTimerComplete s) as [[] [? ? ?]];
      cbn in H; injection H as -> ->
  end.

Lemma core_start st (s : Sys W) :
  core (execState (start onTick st) s) = core (exec (Start st) (forget s)).
Proof.
  destruct s as [[x p r t i cfg] [n l] o]. unfold_methods.
  destruct st; cbn; try reflexivity;
    destruct (r =? 0); cbn; destruct i; cbn; after_callback; reflexivity.
Qed.

Lemma core_stop (s : Sys W) :
  core (execState (stop onTick) s) = core (exec Stop (forget s)).
Proof.
  destruct s as [[x p r t i cfg] [n l] o]. unfold_methods.
  destruct i; cbn; after_callback; reflexivity.
Qed.

Lemma core_reset (s : Sys W) :
  core (execState (reset onTick) s) = core (exec Reset (forget s)).
Proof.
  destruct s as [[x p r t i cfg] [n l] o]. unfold_methods.
  destruct i; cbn; after_callback; cbn; after_callback; reflexivity.
Qed.

Lemma core_pause (s : Sys W) :
  core (execState (pause onTick) s) = core (exec Pause (forget s)).
Proof.
  destruct s as [[x p r t i cfg] [n l] o]. unfold_methods.
  destruct i; [|reflexivity].
  destruct x; cbn; try reflexivity; after_callback; reflexivity.
Qed.

Lemma core_resume (s : Sys W) :
  core (execState (resume onTick) s) = core (exec Resume (forget s)).
Proof.
  pose proof (core_start (prePauseState (timer s)) s) as Hs.
  destruct s as [[x p r t i cfg] [n l] o].
  destruct x; try reflexivity. exact Hs.
Qed.

Lemma core_updateSettings cfg (s : Sys W) :
  core (execState (updateSettings cfg) s)
  = core (exec (UpdateSettings cfg) (forget s)).
Proof. reflexivity. Qed.

Lemma core_fire h (s : Sys W) :
  core (execState (fire onTick onStateChange onTimerComplete h) s)
  = core (exec (Fire h) (forget s)).
Proof.
  destruct s as [[x p r t i cfg] [n l] o]. unfold_methods. cbn.
  destruct (existsb (Pos.eqb h) l); [|reflexivity]. cbn.
  after_callback. cbn.
  destruct (r - 1 <=? 0); [|reflexivity].
  destruct i; cbn; after_callback; cbn; after_callback; cbn;
    after_callback; reflexivity.
Qed.

End TimerUnderAnyOwner.

(** * The plugin's timer is the engine *)

Section PluginTimer.

Import Timer Recorded.

Lemma recorded_callbacks_keep_core :
  (forall r t, keeps core (Recorded.onTick r t))
  /\ (forall s, keeps core (Recorded.onStateChange s))
  /\ keeps core Recorded.onTimerComplete.
Proof. repeat split. Qed.

(** What a command does to the timer and the table does not depend on
    the log. *)
Lemma exec_core_only c (e e' : Engine) :
  core e = core e' -> core (exec c e) = core (exec c e').
Proof.
  intros He.
  assert (Hf : forget e = forget e').
  { unfold forget. unfold core in He. injection He as -> ->. reflexivity. }
  destruct recorded_callbacks_keep_core as (HT & HS & HC).
  assert (Hc : forall x : Engine, core (exec c x) = core (exec c (forget x))).
  { intros x. destruct c.
    - apply core_start, HT.
    - apply core_pause, HT.
    - apply core_resume, HT.
    - apply core_stop, HT.
    - apply core_reset, HT.
    - apply core_updateSettings.
    - apply core_fire; assumption. }
  rewrite (Hc e), (Hc e'), Hf. reflexivity.
Qed.

Lemma execAll_core_only cs : forall (e e' : Engine),
  core e = core e' -> core (execAll cs e) = core (execAll cs e').
Proof.
  induction cs as [|c cs IH]; intros e e' He; [exact He|].
  cbn. apply IH. now apply exec_core_only.
Qed.

Lemma execAll_app cs1 cs2 (e : Engine) :
  execAll (cs1 ++ cs2) e = execAll cs2 (execAll cs1 e).
Proof. apply fold_left_app. Qed.

Lemma simulated_keeps {W A} (m : Eff W A) : keeps core m -> simulated m.
Proof. intros Hk s. exists []. apply Hk. Qed.

Lemma simulated_bind {W A B} (m : Eff W A) (k : A -> Eff W B) :
  simulated m -> (forall a, simulated (k a)) -> simulated (x <- m ;; k x).
Proof.
  intros Hm Hk s. destruct (Hm s) as [cs1 H1]. cbn.
  destruct (runState m s) as [a s1]. cbn in H1.
  destruct (Hk a s1) as [cs2 H2]. exists (cs1 ++ cs2).
  rewrite H2, execAll_app. apply execAll_core_only. exact H1.
Qed.

Lemma simulated_by {W A} (m : Eff W A) (c : Command) :
  (forall s, core (snd (runState m s)) = core (exec c (forget s))) ->
  simulated m.
Proof. intros H s. exists [c]. apply H. Qed.

Import Plugin.

Local Ltac core_step :=
  lazymatch goal with
  | |- keeps _ (ret _) => apply keeps_ret
  | |- keeps _ (bind _ _) => apply keeps_bind; [|intros ?]
  | |- keeps _ get => apply keeps_get
  | |- keeps _ (readTimer _) => apply keeps_readTimer
  | |- keeps _ (readThis _) => apply keeps_readThis
  | |- keeps _ (writeThis _) => apply keeps_writeThis; intros ?; reflexivity
  | |- keeps _ (if ?b then _ else _) => destruct b
  | |- keeps _ (match ?x with _ => _ end) => destruct x
  end.

(** The plugin's callbacks do not touch the timer. *)
Lemma updateUI_core r t : keeps core (updateUI r t).
Proof. unfold updateUI. repeat core_step. Qed.

Lemma onTimerCompletion_core s : keeps core (onTimerCompletion s).
Proof. unfold onTimerCompletion. repeat core_step. Qed.

Lemma onTimerComplete_core : keeps core Plugin.onTimerComplete.
Proof.
  unfold Plugin.onTimerComplete, advanceToNextMode, getModeText, Notice,
    setTimeout, updateUI.
  repeat core_step.
Qed.

Lemma acknowledge_core : keeps core acknowledgeSessionComplete.
Proof.
  unfold acknowledgeSessionComplete, isRunning, getRemainingTime,
    getTotalTime, updateUI.
  repeat core_step.
Qed.

Lemma sim_timer_start m : simulated (timer_start m).
Proof. apply simulated_by with (Start m). apply core_start, updateUI_core. Qed.

Lemma sim_timer_pause : simulated timer_pause.
Proof. apply simulated_by with Pause. apply core_pause, updateUI_core. Qed.

Lemma sim_timer_resume : simulated timer_resume.
Proof. apply simulated_by with Resume. apply core_resume, updateUI_core. Qed.

Lemma sim_timer_stop : simulated timer_stop.
Proof. apply simulated_by with Stop. apply core_stop, updateUI_core. Qed.

Lemma sim_timer_reset : simulated timer_reset.
Proof. apply simulated_by with Reset. apply core_reset, updateUI_core. Qed.

Lemma sim_timer_fire h : simulated (timer_fire h).
Proof.
  apply simulated_by with (Fire h).
  apply core_fire;
    [apply updateUI_core | apply onTimerCompletion_core
    | apply onTimerComplete_core].
Qed.

(** A change in the settings tab reaches the timer as [updateSettings]
    with the object as the assignment left it. *)
Lemma sim_settingChanged c : simulated (settingChanged c).
Proof.
  intros s. exists [UpdateSettings (assign c (settings (timer s)))].
  reflexivity.
Qed.

Local Ltac sim_step :=
  lazymatch goal with
  | |- simulated (bind _ _) => apply simulated_bind; [|intros ?]
  | |- simulated (if ?b then _ else _) => destruct b
  | |- simulated (match ?x with _ => _ end) => destruct x
  | |- simulated (timer_start _) => apply sim_timer_start
  | |- simulated timer_pause => apply sim_timer_pause
  | |- simulated timer_resume => apply sim_timer_resume
  | |- simulated timer_stop => apply sim_timer_stop
  | |- simulated timer_reset => apply sim_timer_reset
  | |- simulated (timer_fire _) => apply sim_timer_fire
  | |- simulated (settingChanged _) => apply sim_settingChanged
  | |- simulated acknowledgeSessionComplete =>
      apply simulated_keeps, acknowledge_core
  | |- simulated _ => apply simulated_keeps; solve [repeat core_step]
  end.

Lemma sim_handle ev : simulated (handle ev).
Proof.
  destruct ev; cbn [handle];
    unfold handlePauseResumeClick, handleResetClick, handleCycleModeClick,
      pieButtonClick, autoStartCallback, autoDismissCallback, onunload,
      refreshHeaderButton, removeHeaderButton, handleDocumentClick,
      isRunning, getState, getModeText, Notice, updateUI;
    repeat sim_step.
Qed.

Lemma run_simulated evs : forall (p : Plugin.Plugin) (e : Engine),
  core p = core e ->
  exists cs, core (run evs p) = core (execAll cs e).
Proof.
  induction evs as [|ev evs IH]; intros p e Hpe.
  - exists []. exact Hpe.
  - destruct (sim_handle ev p) as [cs1 H1].
    assert (H1' : core (step ev p) = core (execAll cs1 e)).
    { unfold step, execState. rewrite H1. apply execAll_core_only.
      exact Hpe. }
    destruct (IH _ _ H1') as [cs2 H2]. exists (cs1 ++ cs2).
    cbn. rewrite execAll_app. exact H2.
Qed.

(** The plugin's timer and window are those of a reachable engine. *)
Lemma plugin_core_reachable (cfg : PomodoroSettings) (evs : list Event) :
  exists e, Reachable anySettings e
            /\ timer (run evs (onload cfg)) = timer e
            /\ window (run evs (onload cfg)) = window e.
Proof.
  destruct (run_simulated evs (onload cfg) (boot cfg) eq_refl) as [cs Hcs].
  unfold core in Hcs. injection Hcs as Ht Hw.
  exists (execAll cs (boot cfg)). repeat split; try assumption.
  apply Reachable_execAll.
  - apply reach_boot. exact I.
  - apply Forall_forall. intros c _. apply admissible_any.
Qed.

(** X9: whatever the user and the host do to the plugin, its timer is in
    a state the engine reaches by its own commands: the callbacks and the
    handlers never reach into it.  So in the plugin too the host holds at
    most one interval, the timer's own, armed exactly while the state is a
    mode; an idle timer shows zero time; a paused one remembers a mode. *)
Theorem plugin_timer_is_an_engine (cfg : PomodoroSettings) (evs : list Event) :
  let p := run evs (onload cfg) in
  (exists cs, timer p = timer (execAll cs (boot cfg))
              /\ window p = window (execAll cs (boot cfg)))
  /\ intervals (window p) =
       match intervalId (timer p) with Some h => [h] | None => [] end
  /\ (isMode (state (timer p)) = true <-> intervalId (timer p) <> None)
  /\ (state (timer p) = Idle ->
      remainingTime (timer p) = 0 /\ totalTime (timer p) = 0)
  /\ (state (timer p) = Paused -> isMode (prePauseState (timer p)) = true).
Proof.
  intros p. subst p.
  destruct (run_simulated evs (onload cfg) (boot cfg) eq_refl) as [cs Hcs].
  unfold core in Hcs. injection Hcs as Ht Hw.
  split; [exists cs; split; assumption|].
  rewrite Ht, Hw. apply Sound_spelled_out.
  apply Reachable_Sound with anySettings. apply Reachable_execAll.
  - apply reach_boot. exact I.
  - apply Forall_forall. intros c _. apply admissible_any.
Qed.

End PluginTimer.

(** * Further equations of the plugin's handlers *)

Section PluginFurtherEquations.

Import Timer Recorded Plugin.

Local Ltac unfold_all :=
  unfold step, exec, execState, handle, perform, handleCycleModeClick,
    handlePauseResumeClick, handleResetClick, pieButtonClick,
    autoStartCallback, autoDismissCallback, acknowledgeSessionComplete,
    Plugin.onTimerComplete, advanceToNextMode, onTimerCompletion,
    settingChanged, saveSettings, onunload, refreshHeaderButton,
    removeHeaderButton, handleDocumentClick,
    timer_start, timer_pause, timer_resume, timer_stop, timer_reset,
    timer_fire, getModeText, Notice, setTimeout, updateUI,
    readThis, writeThis, isRunning, getState, getRemainingTime,
    getTotalTime, start, stop, pause, resume, reset, fire,
    intervalCallback, updateSettings, readTimer, writeTimer,
    setInterval, clearInterval, Recorded.onTick, emit, forget, core,
    toggleCommand, taken.

(** The time button while a session awaits acknowledgment. *)
Lemma click_time_awaiting (p : Plugin.Plugin) :
  isSessionComplete (owner p) = true ->
  step ClickTime p = execState acknowledgeSessionComplete p.
Proof.
  destruct p as [t w [cm cp nm sc pin pe no]]. cbn. intros ->. reflexivity.
Qed.

(** The time button otherwise: play, pause or resume, and nothing else. *)
Lemma click_time_toggle (p : Plugin.Plugin) :
  isSessionComplete (owner p) = false ->
  owner (step ClickTime p) = owner p
  /\ core (step ClickTime p) = core (exec (toggleCommand p) (forget p)).
Proof.
  destruct p as [[s pp r t i cfg] [n l] [cm cp nm sc pin pe no]].
  cbn. intros ->. unfold_all.
  destruct s; cbn; try (destruct i; split; reflexivity).
  - destruct pp; cbn; try (split; reflexivity);
      destruct (r =? 0); cbn; destruct i; split; reflexivity.
  - destruct cm; cbn; try (split; reflexivity);
      destruct (r =? 0); cbn; destruct i; split; reflexivity.
Qed.

Lemma click_pie_eq (p : Plugin.Plugin) :
  step ClickPie p =
  if isSessionComplete (owner p) then execState acknowledgeSessionComplete p
  else {| timer := timer p; window := window p;
          owner := with_isPanelPinned (negb (isPanelPinned (owner p)))
                                      (owner p) |}.
Proof.
  destruct p as [t w [cm cp nm sc pin pe no]]. destruct sc; reflexivity.
Qed.

Lemma setting_changed_eq c (p : Plugin.Plugin) :
  step (ChangeSetting c) p =
  {| timer := with_settings (assign c (settings (timer p))) (timer p);
     window := window p; owner := owner p |}.
Proof. reflexivity. Qed.

(** A timeout that is not pending has no callback to run. *)
Lemma timeout_not_pending k (p : Plugin.Plugin) :
  existsb (Timeout_eqb k) (pending (owner p)) = false ->
  step (TimeoutFires k) p = p.
Proof.
  destruct p as [t w [cm cp nm sc pin pe no]]. cbn. intros H.
  unfold step, execState, handle, readThis. cbn. rewrite H. reflexivity.
Qed.

(** The expiry timeout: taken off the list, then plain acknowledgment. *)
Lemma timeout_dismiss_eq (p : Plugin.Plugin) :
  existsb (Timeout_eqb AutoDismiss) (pending (owner p)) = true ->
  step (TimeoutFires AutoDismiss) p
  = execState acknowledgeSessionComplete (taken AutoDismiss p).
Proof.
  destruct p as [t w [cm cp nm sc pin pe no]]. cbn. intros H.
  unfold step, execState, handle, readThis. cbn. rewrite H. reflexivity.
Qed.

(** The grace timeout: taken off the list; if the session still awaits
    acknowledgment the mode moves on and the timer is started in it. *)
Lemma timeout_autostart_eq (p : Plugin.Plugin) :
  existsb (Timeout_eqb AutoStartNext) (pending (owner p)) = true ->
  if isSessionComplete (owner p) then
    owner (step (TimeoutFires AutoStartNext) p)
    = with_currentMode (nextMode (owner p)) (owner (taken AutoStartNext p))
    /\ core (step (TimeoutFires AutoStartNext) p)
       = core (exec (Start (nextMode (owner p))) (forget p))
  else step (TimeoutFires AutoStartNext) p = taken AutoStartNext p.
Proof.
  destruct p as [[s pp r t i cfg] [n l] [cm cp nm sc pin pe no]].
  cbn. intros H. unfold_all. cbn. rewrite H. cbn.
  destruct sc; [|reflexivity]. cbn.
  destruct nm; cbn; try (split; reflexivity);
    destruct (r =? 0); cbn; destruct i; split; reflexivity.
Qed.

End PluginFurtherEquations.

(** * Further properties of the plugin *)

Section PluginFurther.

Import Timer Recorded Plugin.

(** Induction over the events that brought the plugin where it is. *)
Lemma run_snoc evs ev (p : Plugin.Plugin) :
  run (evs ++ [ev]) p = step ev (run evs p).
Proof. unfold run. rewrite fold_left_app. reflexivity. Qed.

Lemma run_invariant (I : Plugin.Plugin -> Prop) :
  (forall cfg, I (onload cfg)) ->
  (forall ev p, I p -> I (step ev p)) ->
  forall cfg evs, I (run evs (onload cfg)).
Proof.
  intros H0 Hstep cfg evs. induction evs as [|ev evs IH] using rev_ind.
  - apply H0.
  - rewrite run_snoc. now apply Hstep.
Qed.

Lemma acknowledge_owner (p : Plugin.Plugin) :
  owner (execState acknowledgeSessionComplete p) =
  if isMode (state (timer p)) then with_isSessionComplete false (owner p)
  else with_currentMode (nextMode (owner p))
         (with_isSessionComplete false (owner p)).
Proof. rewrite acknowledge_eq. reflexivity. Qed.

(** The modes of the plugin stay modes. *)
Lemma step_keeps_modes ev (p : Plugin.Plugin) :
  isMode (currentMode (owner p)) = true /\ isMode (nextMode (owner p)) = true ->
  isMode (currentMode (owner (step ev p))) = true
  /\ isMode (nextMode (owner (step ev p))) = true.
Proof.
  intros [Hc Hn].
  assert (Hack : forall q : Plugin.Plugin,
             isMode (currentMode (owner q)) = true ->
             isMode (nextMode (owner q)) = true ->
             isMode (currentMode (owner (execState acknowledgeSessionComplete q)))
             = true
             /\ isMode (nextMode (owner (execState acknowledgeSessionComplete q)))
                = true).
  { intros q Hqc Hqn. rewrite acknowledge_owner.
    destruct (isMode (state (timer q))); cbn; auto. }
  destruct ev.
  - destruct (isSessionComplete (owner p)) eqn:Hw.
    + rewrite (click_time_awaiting p Hw). now apply Hack.
    + destruct (click_time_toggle p Hw) as [-> _]. auto.
  - rewrite reset_click_eq. cbn. auto.
  - rewrite cycle_click_eq.
    destruct (negb (TimerState_eqb (state (timer p)) Idle)); [cbn; auto|].
    destruct (isSessionComplete (owner p)); [now apply Hack|].
    cbn. split; [|assumption].
    destruct (currentMode (owner p)); try discriminate; reflexivity.
  - rewrite click_pie_eq.
    destruct (isSessionComplete (owner p)); [now apply Hack | cbn; auto].
  - rewrite setting_changed_eq. cbn. auto.
  - rewrite timer_fire_eq.
    destruct (existsb (Pos.eqb h) (intervals (window p))); [|auto].
    cbn zeta. destruct (remainingTime (timer p) - 1 <=? 0); [|cbn; auto].
    rewrite onTimerComplete_eq. cbn. split; [assumption|].
    destruct (TimerState_eqb (currentMode (owner p)) Work); [|reflexivity].
    destruct (remIsZero _ _); reflexivity.
  - destruct (existsb (Timeout_eqb k) (pending (owner p))) eqn:Hk.
    + destruct k.
      * pose proof (timeout_autostart_eq p Hk) as H.
        destruct (isSessionComplete (owner p)).
        -- destruct H as [-> _]. cbn. auto.
        -- rewrite H. cbn. auto.
      * rewrite (timeout_dismiss_eq p Hk). now apply Hack.
    + rewrite (timeout_not_pending k p Hk). auto.
  - rewrite unload_eq. cbn. auto.
  - rewrite leaf_change_eq. cbn. auto.
  - rewrite document_click_eq.
    destruct (isPanelPinned (owner p) && outside); cbn; auto.
Qed.

(** X10: the status values never leak into the plugin's modes: whatever
    happens, the current mode and the next mode are each Work, Short Break
    or Long Break, so the timer is only ever started with a mode and the
    mode label never shows the fall-through text for a status value. *)
Theorem modes_stay_modes (cfg : PomodoroSettings) (evs : list Event) :
  let p := run evs (onload cfg) in
  isMode (currentMode (owner p)) = true
  /\ isMode (nextMode (owner p)) = true
  /\ (modeText (currentMode (owner p)) = "Long Break"%string ->
      currentMode (owner p) = LongBreak).
Proof.
  intros p. subst p.
  assert (H : isMode (currentMode (owner (run evs (onload cfg)))) = true
              /\ isMode (nextMode (owner (run evs (onload cfg)))) = true).
  { apply (run_invariant
             (fun p => isMode (currentMode (owner p)) = true
                       /\ isMode (nextMode (owner p)) = true)).
    - intros c. split; reflexivity.
    - intros ev p. apply step_keeps_modes. }
  destruct H as [Hc Hn]. repeat split; try assumption.
  destruct (currentMode (owner (run evs (onload cfg))));
    try discriminate; reflexivity.
Qed.

Lemma unschedule_other k k' l :
  k <> k' ->
  existsb (Timeout_eqb k') (unschedule k l) = existsb (Timeout_eqb k') l.
Proof.
  intros Hne. induction l as [|x l IH]; [reflexivity|]. cbn.
  destruct k, x, k'; cbn; try congruence; try reflexivity;
    rewrite ?IH; reflexivity.
Qed.

Lemma existsb_last k l : existsb (Timeout_eqb k) (l ++ [k]) = true.
Proof.
  rewrite existsb_app. cbn. destruct k; cbn; apply orb_true_r.
Qed.

(** While a session awaits acknowledgment its expiry timeout is pending. *)
Lemma step_keeps_expiry ev (p : Plugin.Plugin) :
  (isSessionComplete (owner p) = true ->
   existsb (Timeout_eqb AutoDismiss) (pending (owner p)) = true) ->
  isSessionComplete (owner (step ev p)) = true ->
  existsb (Timeout_eqb AutoDismiss) (pending (owner (step ev p))) = true.
Proof.
  intros HI.
  assert (Hack : forall q : Plugin.Plugin,
             isSessionComplete (owner (execState acknowledgeSessionComplete q))
             = false).
  { intros q. rewrite acknowledge_owner.
    destruct (isMode (state (timer q))); reflexivity. }
  destruct ev.
  - destruct (isSessionComplete (owner p)) eqn:Hw.
    + rewrite (click_time_awaiting p Hw), Hack. discriminate.
    + destruct (click_time_toggle p Hw) as [-> _]. rewrite Hw. discriminate.
  - rewrite reset_click_eq. cbn. discriminate.
  - rewrite cycle_click_eq.
    destruct (negb (TimerState_eqb (state (timer p)) Idle)); [cbn; exact HI|].
    destruct (isSessionComplete (owner p)) eqn:Hw;
      [rewrite Hack; discriminate | cbn; rewrite Hw; discriminate].
  - rewrite click_pie_eq.
    destruct (isSessionComplete (owner p)) eqn:Hw;
      [rewrite Hack; discriminate | cbn; rewrite Hw; discriminate].
  - rewrite setting_changed_eq. exact HI.
  - rewrite timer_fire_eq.
    destruct (existsb (Pos.eqb h) (intervals (window p))); [|exact HI].
    cbn zeta. destruct (remainingTime (timer p) - 1 <=? 0); [|exact HI].
    rewrite onTimerComplete_eq. cbn. intros _.
    rewrite app_assoc. apply existsb_last.
  - destruct (existsb (Timeout_eqb k) (pending (owner p))) eqn:Hk.
    + destruct k.
      * pose proof (timeout_autostart_eq p Hk) as H.
        destruct (isSessionComplete (owner p)) eqn:Hw.
        -- destruct H as [-> _]. cbn. intros _.
           rewrite unschedule_other by discriminate. now apply HI.
        -- rewrite H. cbn. rewrite Hw. discriminate.
      * rewrite (timeout_dismiss_eq p Hk), Hack. discriminate.
    + rewrite (timeout_not_pending k p Hk). exact HI.
  - rewrite unload_eq. exact HI.
  - rewrite leaf_change_eq. exact HI.
  - rewrite document_click_eq.
    destruct (isPanelPinned (owner p) && outside); exact HI.
Qed.

(** X11: a session never awaits acknowledgment for ever.  Whatever
    happened, while the flag is set the expiry timeout scheduled by the
    completion is still pending, and when the host runs it the flag is
    cleared. *)
Theorem acknowledgment_always_expires
    (cfg : PomodoroSettings) (evs : list Event) :
  let p := run evs (onload cfg) in
  isSessionComplete (owner p) = true ->
  In AutoDismiss (pending (owner p))
  /\ isSessionComplete (owner (step (TimeoutFires AutoDismiss) p)) = false.
Proof.
  intros p Hw. subst p.
  assert (H : existsb (Timeout_eqb AutoDismiss)
                (pending (owner (run evs (onload cfg)))) = true).
  { revert Hw.
    apply (run_invariant
             (fun p => isSessionComplete (owner p) = true ->
                       existsb (Timeout_eqb AutoDismiss) (pending (owner p))
                       = true)).
    - intros c. cbn. discriminate.
    - intros ev p. apply step_keeps_expiry. }
  split.
  - apply existsb_exists in H. destruct H as (k & Hin & Hk).
    destruct k; [discriminate | exact Hin].
  - rewrite (timeout_dismiss_eq _ H), acknowledge_owner.
    destruct (isMode _); reflexivity.
Qed.

Lemma acknowledgment_always_expires_witness :
  let p := run (ClickTime :: repeat (IntervalFires 1%positive) 1500)
               (onload DEFAULT_SETTINGS) in
  In AutoDismiss (pending (owner p))
  /\ isSessionComplete (owner (step (TimeoutFires AutoDismiss) p)) = false.
Proof.
  apply (acknowledgment_always_expires DEFAULT_SETTINGS
           (ClickTime :: repeat (IntervalFires 1%positive) 1500)).
  vm_compute. reflexivity.
Defined.

(** X12: the count of completed pomodoros only ever grows, by at most
    one per tick of an interval: no click, reset, settings change, timeout
    or unload lowers or clears it, so a reset does not restart the cadence
    of long breaks. *)
Theorem pomodoro_count_only_grows (p : Plugin.Plugin) (evs : list Event) :
  pomodoroCount p <= pomodoroCount (run evs p)
                  <= pomodoroCount p + Z.of_nat (ticksIn evs).
Proof.
  revert p. induction evs as [|ev evs IH]; intros p; [cbn; lia|].
  cbn [run fold_left]. fold (run evs (step ev p)).
  specialize (IH (step ev p)).
  destruct (count_moves_on_work_completion ev p) as [Hs | (h & -> & _ & _ & _ & Hs)].
  - rewrite Hs in IH. unfold ticksIn in *. cbn [filter].
    destruct ev; cbn [List.length]; lia.
  - rewrite Hs in IH. unfold ticksIn in *. cbn [filter List.length]. lia.
Qed.

(** X13: the mode label walks Work, Short Break, Long Break and back.
    With the timer idle and no session awaiting acknowledgment, a click
    moves the current mode one step and touches neither the timer nor the
    next mode nor the count; three clicks bring the mode back. *)
Theorem mode_label_cycles (p : Plugin.Plugin) :
  state (timer p) = Idle ->
  isSessionComplete (owner p) = false ->
  isMode (currentMode (owner p)) = true ->
  let p1 := step ClickMode p in
  let p3 := run [ClickMode; ClickMode; ClickMode] p in
  currentMode (owner p1) = cycled (currentMode (owner p))
  /\ currentMode (owner p1) <> currentMode (owner p)
  /\ timer p1 = timer p /\ window p1 = window p
  /\ nextMode (owner p1) = nextMode (owner p)
  /\ completedPomodoros (owner p1) = completedPomodoros (owner p)
  /\ currentMode (owner p3) = currentMode (owner p)
  /\ timer p3 = timer p.
Proof.
  intros Hi Hw Hm p1 p3. subst p1 p3. cbn [run fold_left].
  assert (Hone : forall q : Plugin.Plugin,
             state (timer q) = Idle -> isSessionComplete (owner q) = false ->
             (state (timer (step ClickMode q)) = Idle
              /\ isSessionComplete (owner (step ClickMode q)) = false)
             /\ currentMode (owner (step ClickMode q))
                = cycled (currentMode (owner q))
             /\ timer (step ClickMode q) = timer q
             /\ window (step ClickMode q) = window q
             /\ nextMode (owner (step ClickMode q)) = nextMode (owner q)
             /\ completedPomodoros (owner (step ClickMode q))
                = completedPomodoros (owner q)).
  { intros q Hqi Hqw. rewrite cycle_click_eq, Hqi, Hqw. cbn.
    destruct (currentMode (owner q)); repeat split; assumption. }
  destruct (Hone p Hi Hw) as ([Hi1 Hw1] & Hc1 & Ht1 & Hx1 & Hn1 & Hp1).
  destruct (Hone _ Hi1 Hw1) as ([Hi2 Hw2] & Hc2 & Ht2 & _).
  destruct (Hone _ Hi2 Hw2) as (_ & Hc3 & Ht3 & _).
  rewrite Hc3, Hc2, Ht3, Ht2, Hc1, Ht1.
  destruct (currentMode (owner p)); try discriminate; repeat split;
    try assumption; discriminate.
Qed.

Lemma mode_label_cycles_witness :
  let p := onload DEFAULT_SETTINGS in
  let p1 := step ClickMode p in
  let p3 := run [ClickMode; ClickMode; ClickMode] p in
  currentMode (owner p1) = cycled (currentMode (owner p))
  /\ currentMode (owner p1) <> currentMode (owner p)
  /\ timer p1 = timer p /\ window p1 = window p
  /\ nextMode (owner p1) = nextMode (owner p)
  /\ completedPomodoros (owner p1) = completedPomodoros (owner p)
  /\ currentMode (owner p3) = currentMode (owner p)
  /\ timer p3 = timer p.
Proof.
  apply (mode_label_cycles (onload DEFAULT_SETTINGS)); reflexivity.
Defined.

(** X14: under a running countdown the current mode can only be moved
    by the grace timeout: every other event leaves it alone (a click on
    the mode label is turned down, an acknowledgment only clears the flag,
    a completion only computes the next mode).  And the next mode is
    written by nothing but the completion callback. *)
Theorem mode_is_pinned_while_running (ev : Event) (p : Plugin.Plugin) :
  (isMode (state (timer p)) = true ->
   ev <> TimeoutFires AutoStartNext ->
   currentMode (owner (step ev p)) = currentMode (owner p))
  /\ ((forall h, ev <> IntervalFires h) ->
      nextMode (owner (step ev p)) = nextMode (owner p)).
Proof.
  assert (Hack : forall q : Plugin.Plugin,
             nextMode (owner (execState acknowledgeSessionComplete q))
             = nextMode (owner q)
             /\ (isMode (state (timer q)) = true ->
                 currentMode (owner (execState acknowledgeSessionComplete q))
                 = currentMode (owner q))).
  { intros q. rewrite acknowledge_owner.
    destruct (isMode (state (timer q))); cbn; split; auto; discriminate. }
  destruct ev.
  - destruct (isSessionComplete (owner p)) eqn:Hw.
    + rewrite (click_time_awaiting p Hw). split; intros; now apply Hack.
    + destruct (click_time_toggle p Hw) as [-> _]. auto.
  - rewrite reset_click_eq. cbn. auto.
  - rewrite cycle_click_eq. split.
    + intros Hm _.
      destruct (TimerState_eqb_spec (state (timer p)) Idle) as [Hi|Hn];
        [rewrite Hi in Hm; discriminate | reflexivity].
    + intros _.
      destruct (negb (TimerState_eqb (state (timer p)) Idle)); [reflexivity|].
      destruct (isSessionComplete (owner p)); [apply Hack | reflexivity].
  - rewrite click_pie_eq.
    destruct (isSessionComplete (owner p));
      [split; intros; now apply Hack | cbn; auto].
  - rewrite setting_changed_eq. cbn. auto.
  - split; [|intros Hne; now elim (Hne h)].
    intros _ _. rewrite timer_fire_eq.
    destruct (existsb (Pos.eqb h) (intervals (window p))); [|reflexivity].
    cbn zeta. destruct (remainingTime (timer p) - 1 <=? 0); [|reflexivity].
    rewrite onTimerComplete_eq. reflexivity.
  - destruct (existsb (Timeout_eqb k) (pending (owner p))) eqn:Hk.
    + destruct k.
      * split; [intros _ Hne; now elim Hne|]. intros _.
        pose proof (timeout_autostart_eq p Hk) as H.
        destruct (isSessionComplete (owner p)).
        -- destruct H as [-> _]. reflexivity.
        -- rewrite H. reflexivity.
      * rewrite (timeout_dismiss_eq p Hk).
        split; intros; [destruct (Hack (taken AutoDismiss p)) as [_ ->]
                       | destruct (Hack (taken AutoDismiss p)) as [-> _]];
          auto.
    + rewrite (timeout_not_pending k p Hk). auto.
  - rewrite unload_eq. cbn. auto.
  - rewrite leaf_change_eq. cbn. auto.
  - rewrite document_click_eq.
    destruct (isPanelPinned (owner p) && outside); cbn; auto.
Qed.

(** X15: an acknowledgment or a reset calls the auto-start off.  Once
    the flag is cleared - by a reset, or by a click on the time button or
    on the pie while the session awaited acknowledgment - the grace
    timeout, when it fires, takes itself off the list and does nothing
    else: the timer is not started and the mode does not move. *)
Theorem cleared_flag_cancels_auto_start (p : Plugin.Plugin) :
  (isSessionComplete (owner p) = false ->
   let p' := step (TimeoutFires AutoStartNext) p in
   timer p' = timer p /\ window p' = window p
   /\ with_pending (pending (owner p)) (owner p') = owner p)
  /\ isSessionComplete (owner (step RightClickTime p)) = false
  /\ (isSessionComplete (owner p) = true ->
      isSessionComplete (owner (step ClickTime p)) = false
      /\ isSessionComplete (owner (step ClickPie p)) = false
      /\ timer (step ClickTime p) = timer p
      /\ timer (step ClickPie p) = timer p).
Proof.
  split; [|split].
  - intros Hw p'. subst p'.
    destruct (existsb (Timeout_eqb AutoStartNext) (pending (owner p))) eqn:Hk.
    + pose proof (timeout_autostart_eq p Hk) as H. rewrite Hw in H.
      rewrite H. destruct p as [t w [cm cp nm sc pin pe no]]. repeat split.
    + rewrite (timeout_not_pending _ p Hk).
      destruct p as [t w [cm cp nm sc pin pe no]]. repeat split.
  - rewrite reset_click_eq. reflexivity.
  - intros Hw. rewrite (click_time_awaiting p Hw), click_pie_eq, Hw.
    rewrite acknowledge_eq. cbn.
    destruct (isMode (state (timer p))); repeat split.
Qed.

(** X16: auto-start, then the acknowledgment.  When the grace timeout
    fires on an idle timer whose session still awaits acknowledgment, the
    current mode moves to the next mode and the timer runs it with its
    full configured duration; the flag stays set.  A click on the time
    button afterwards only clears the flag: it neither pauses the timer
    nor moves the mode again, and neither does the expiry timeout. *)
Theorem auto_start_then_acknowledge (cfg : PomodoroSettings) (evs : list Event) :
  let p := run evs (onload cfg) in
  isSessionComplete (owner p) = true ->
  state (timer p) = Idle ->
  In AutoStartNext (pending (owner p)) ->
  let next := nextMode (owner p) in
  let started := step (TimeoutFires AutoStartNext) p in
  let clicked := step ClickTime started in
  let expired := step (TimeoutFires AutoDismiss) started in
  (state (timer started) = next
   /\ remainingTime (timer started) = minutesOf (settings (timer p)) next * 60
   /\ totalTime (timer started) = minutesOf (settings (timer p)) next * 60
   /\ currentMode (owner started) = next
   /\ isSessionComplete (owner started) = true)
  /\ (isSessionComplete (owner clicked) = false
      /\ currentMode (owner clicked) = next
      /\ timer clicked = timer started
      /\ window clicked = window started)
  /\ (isSessionComplete (owner expired) = false
      /\ currentMode (owner expired) = next
      /\ timer expired = timer started).
Proof.
  intros p Hw Hi Hin next started clicked expired.
  assert (Hmodes : isMode (currentMode (owner p)) = true
                   /\ isMode (nextMode (owner p)) = true).
  { subst p.
    apply (run_invariant
             (fun p => isMode (currentMode (owner p)) = true
                       /\ isMode (nextMode (owner p)) = true)).
    - intros c. split; reflexivity.
    - intros ev q. apply step_keeps_modes. }
  destruct Hmodes as [_ Hnext].
  assert (Hexp : existsb (Timeout_eqb AutoDismiss) (pending (owner p)) = true).
  { revert Hw. subst p.
    apply (run_invariant
             (fun p => isSessionComplete (owner p) = true ->
                       existsb (Timeout_eqb AutoDismiss) (pending (owner p))
                       = true)).
    - intros c. cbn. discriminate.
    - intros ev q. apply step_keeps_expiry. }
  destruct (plugin_core_reachable cfg evs) as (e & Hr & Ht & Hwin).
  fold p in Ht, Hwin.
  assert (Hzero : remainingTime (timer p) = 0).
  { rewrite Ht. apply (idle_is_clear _ e Hr). now rewrite <- Ht. }
  assert (Hk : existsb (Timeout_eqb AutoStartNext) (pending (owner p)) = true).
  { apply existsb_exists. exists AutoStartNext. split; [assumption | reflexivity]. }
  pose proof (timeout_autostart_eq p Hk) as Hstep. rewrite Hw in Hstep.
  fold started in Hstep. destruct Hstep as [Ho Hc].
  rewrite (start_mode _ _ Hnext) in Hc. cbn in Hc. rewrite Hzero in Hc.
  cbn in Hc. unfold core in Hc. injection Hc as Hts Hws.
  assert (Hflag : isSessionComplete (owner started) = true)
    by (rewrite Ho; cbn; exact Hw).
  assert (Hrun : isMode (state (timer started)) = true)
    by (rewrite Hts; cbn; exact Hnext).
  assert (Hcur : currentMode (owner started) = next) by (rewrite Ho; reflexivity).
  split; [|split].
  - rewrite Hts. cbn. repeat split; assumption.
  - subst clicked. rewrite (click_time_awaiting _ Hflag), acknowledge_eq, Hrun.
    cbn. repeat split. exact Hcur.
  - subst expired.
    assert (Hk' : existsb (Timeout_eqb AutoDismiss) (pending (owner started))
                  = true).
    { rewrite Ho. cbn. rewrite unschedule_other by discriminate. exact Hexp. }
    rewrite (timeout_dismiss_eq _ Hk'), acknowledge_eq. cbn. rewrite Hrun.
    cbn. repeat split. exact Hcur.
Qed.

Lemma auto_start_then_acknowledge_witness :
  let cfg := {| workTime := 25; shortBreakTime := 5; longBreakTime := 15;
                longBreakInterval := 4; autoStartBreaks := true;
                autoStartPomodoros := false; showDesktopNotification := true;
                playSound := true; showInStatusBar := false;
                sessions := []; tasks := [] |} in
  let evs := ClickTime :: repeat (IntervalFires 1%positive) 1500 in
  let p := run evs (onload cfg) in
  let next := nextMode (owner p) in
  let started := step (TimeoutFires AutoStartNext) p in
  let clicked := step ClickTime started in
  let expired := step (TimeoutFires AutoDismiss) started in
  (state (timer started) = next
   /\ remainingTime (timer started) = minutesOf (settings (timer p)) next * 60
   /\ totalTime (timer started) = minutesOf (settings (timer p)) next * 60
   /\ currentMode (owner started) = next
   /\ isSessionComplete (owner started) = true)
  /\ (isSessionComplete (owner clicked) = false
      /\ currentMode (owner clicked) = next
      /\ timer clicked = timer started
      /\ window clicked = window started)
  /\ (isSessionComplete (owner expired) = false
      /\ currentMode (owner expired) = next
      /\ timer expired = timer started).
Proof.
  intros cfg evs.
  apply (auto_start_then_acknowledge cfg evs).
  - vm_compute. reflexivity.
  - vm_compute. reflexivity.
  - vm_compute. left. reflexivity.
Defined.

(** X19: reset, then play.  From wherever the plugin is, a right click
    followed by a click on the time button starts the current mode afresh:
    the timer runs that mode with its full configured duration on the one
    interval the host then holds, the mode and the count are what they
    were, and no session awaits acknowledgment. *)
Theorem reset_then_play_starts_afresh
    (cfg : PomodoroSettings) (evs : list Event) :
  let p := run evs (onload cfg) in
  let q := step ClickTime (step RightClickTime p) in
  let d := minutesOf (settings (timer p)) (currentMode (owner p)) * 60 in
  state (timer q) = currentMode (owner p)
  /\ remainingTime (timer q) = d
  /\ totalTime (timer q) = d
  /\ intervals (window q) = [nextHandle (window p)]
  /\ intervalId (timer q) = Some (nextHandle (window p))
  /\ owner q = with_isSessionComplete false (owner p).
Proof.
  intros p q d. subst q d.
  assert (Hmode : isMode (currentMode (owner p)) = true).
  { subst p.
    apply (run_invariant
             (fun p => isMode (currentMode (owner p)) = true
                       /\ isMode (nextMode (owner p)) = true)).
    - intros c. split; reflexivity.
    - intros ev q. apply step_keeps_modes. }
  destruct (plugin_core_reachable cfg evs) as (e & Hr & Ht & Hw).
  fold p in Ht, Hw.
  pose proof (cleared_table e (Reachable_Sound _ e Hr)) as Hclear.
  rewrite <- Ht, <- Hw in Hclear.
  set (p1 := step RightClickTime p).
  assert (E1 : p1 = {| timer := halted (timer p);
                       window := clearedOf (timer p) (window p);
                       owner := with_isSessionComplete false (owner p) |})
    by apply reset_click_eq.
  assert (Hflag : isSessionComplete (owner p1) = false) by (now rewrite E1).
  destruct (click_time_toggle p1 Hflag) as [Ho Hc].
  rewrite Ho. rewrite E1 in Hc |- *. cbn [owner].
  unfold toggleCommand in Hc. cbn in Hc.
  rewrite (start_mode _ _ Hmode) in Hc. cbn in Hc.
  unfold core in Hc. injection Hc as Htq Hwq.
  rewrite Htq, Hwq. cbn. unfold clearedOf at 1. cbn.
  rewrite Hclear.
  assert (Hnh : nextHandle (clearedOf (timer p) (window p))
                = nextHandle (window p)).
  { unfold clearedOf. destruct (intervalId (timer p)); reflexivity. }
  rewrite ?Hnh. repeat split;
    try reflexivity; destruct (intervalId (timer p)); reflexivity.
Qed.

(** The state of the timer after a [start]. *)
Lemma state_after_start (e : Engine) (st : TimerState) :
  state (timer (exec (Start st) e)) = (if isMode st then st else state (timer e))
  /\ prePauseState (timer (exec (Start st) e)) = prePauseState (timer e).
Proof.
  destruct (isMode st) eqn:Hm.
  - rewrite (start_mode e st Hm). split; reflexivity.
  - rewrite (start_guarded e st Hm). split; reflexivity.
Qed.

(** An acknowledgment of a session that awaits it keeps the label in
    agreement: the timer is then running, and the label stays, or idle. *)
Lemma labelAgrees_acknowledged (p : Plugin.Plugin) :
  labelAgrees p -> isSessionComplete (owner p) = true ->
  labelAgrees (execState acknowledgeSessionComplete p).
Proof.
  intros (Ha & Hp & Hc & Hn) Hw. rewrite acknowledge_eq.
  unfold labelAgrees. cbn [timer owner].
  destruct (state (timer p)) eqn:Hs; cbn [isMode]; cbn;
    repeat split; auto; try discriminate; try congruence.
  all: try (intros _; rewrite Hp in Hw by reflexivity; discriminate).
Qed.

Lemma labelAgrees_same_timer (p q : Plugin.Plugin) :
  labelAgrees p -> timer q = timer p ->
  currentMode (owner q) = currentMode (owner p) ->
  nextMode (owner q) = nextMode (owner p) ->
  isSessionComplete (owner q) = isSessionComplete (owner p) ->
  labelAgrees q.
Proof.
  intros H Ht Hc Hn Hw. unfold labelAgrees in *.
  rewrite Ht, Hc, Hn, Hw. exact H.
Qed.

Lemma labelAgrees_idle (p : Plugin.Plugin) :
  state (timer p) = Idle ->
  isMode (currentMode (owner p)) = true ->
  isMode (nextMode (owner p)) = true ->
  labelAgrees p.
Proof.
  intros Hi Hc Hn. unfold labelAgrees. rewrite Hi.
  repeat split; auto; try discriminate. intros H. now elim H.
Qed.

(** Every event but a stale expiry keeps the label in agreement. *)
Lemma step_keeps_label ev (p : Plugin.Plugin) :
  labelAgrees p -> staleExpiry ev p = false -> labelAgrees (step ev p).
Proof.
  intros HL Hns.
  assert (Hmodes := step_keeps_modes ev p
                      (conj (proj1 (proj2 (proj2 HL))) (proj2 (proj2 (proj2 HL))))).
  destruct Hmodes as [Hc' Hn'].
  pose proof HL as (Ha & Hp & Hc & Hn).
  destruct ev.
  - (* the time button *)
    destruct (isSessionComplete (owner p)) eqn:Hw.
    + rewrite (click_time_awaiting p Hw). now apply labelAgrees_acknowledged.
    + destruct (click_time_toggle p Hw) as [Ho Hcore].
      unfold core in Hcore. injection Hcore as Ht _.
      unfold labelAgrees. rewrite Ho, Ht, Hw. clear Hc' Hn' Ho Ht.
      unfold toggleCommand.
      destruct (state (timer p)) eqn:Hs; cbn [isMode TimerState_eqb].
      1-3: assert (Hcm : state (timer p) = currentMode (owner p))
             by (unfold timerMode in Ha; rewrite Hs in Ha; rewrite Hs;
                 apply Ha; discriminate);
           rewrite pause_eq; cbn [timer forget];
           unfold forget; cbn [timer];
           destruct (intervalId (timer p)); rewrite ?Hs; cbn [isMode];
           cbv iota; unfold timerMode; cbn [state prePauseState timer];
           rewrite ?Hs; rewrite Hs in Hcm;
           repeat split; auto; discriminate.
      * assert (Hf : state (timer (forget p)) = Paused) by exact Hs.
        assert (Hfp : prePauseState (timer (forget p)) = prePauseState (timer p))
          by reflexivity.
        rewrite resume_eq, Hf. cbn [TimerState_eqb]. rewrite Hfp.
        destruct (state_after_start (forget p) (prePauseState (timer p)))
          as [Hst Hpp].
        unfold timerMode in *. rewrite Hs in Ha.
        assert (Hpc : prePauseState (timer p) = currentMode (owner p))
          by (apply Ha; discriminate).
        rewrite Hst, Hpp. cbn [timer forget]. rewrite Hpc, Hc.
        repeat split; auto;
          try (intros H; rewrite H in Hc; discriminate);
          intros _; destruct (currentMode (owner p));
          try (cbn in Hc; discriminate Hc); reflexivity.
      * destruct (state_after_start (forget p) (currentMode (owner p)))
          as [Hst Hpp].
        unfold timerMode. rewrite Hst, Hc.
        repeat split; auto;
          try (intros H; rewrite H in Hc; discriminate);
          intros _; destruct (currentMode (owner p));
          try (cbn in Hc; discriminate Hc); reflexivity.
  - rewrite reset_click_eq. apply labelAgrees_idle; [reflexivity | |];
      cbn; assumption.
  - (* the mode label *)
    rewrite cycle_click_eq in *.
    destruct (TimerState_eqb_spec (state (timer p)) Idle) as [Hi|Hni];
      cbn [negb].
    + destruct (isSessionComplete (owner p)) eqn:Hw;
        [now apply labelAgrees_acknowledged|].
      apply labelAgrees_idle; [exact Hi | exact Hc' | exact Hn'].
    + apply (labelAgrees_same_timer p); auto.
  - rewrite click_pie_eq.
    destruct (isSessionComplete (owner p)) eqn:Hw;
      [now apply labelAgrees_acknowledged|].
    apply (labelAgrees_same_timer p); auto.
  - rewrite setting_changed_eq. unfold labelAgrees. cbn. exact HL.
  - rewrite timer_fire_eq in *.
    destruct (existsb (Pos.eqb h) (intervals (window p))); [|exact HL].
    cbn zeta in *. destruct (remainingTime (timer p) - 1 <=? 0).
    + apply labelAgrees_idle; [rewrite onTimerComplete_eq; reflexivity | |];
        assumption.
    + unfold labelAgrees. cbn. exact HL.
  - destruct (existsb (Timeout_eqb k) (pending (owner p))) eqn:Hk.
    + destruct k.
      * pose proof (timeout_autostart_eq p Hk) as H.
        destruct (isSessionComplete (owner p)) eqn:Hw.
        -- destruct H as [Ho Hcore].
           unfold core in Hcore. injection Hcore as Ht _.
           destruct (state_after_start (forget p) (nextMode (owner p)))
             as [Hst Hpp].
           unfold labelAgrees, timerMode. rewrite Ho, Ht, Hst, Hn. cbn.
           repeat split; auto;
             try (intros H; rewrite H in Hn; discriminate);
             intros _; destruct (nextMode (owner p));
             try (cbn in Hn; discriminate Hn); reflexivity.
        -- rewrite H. apply (labelAgrees_same_timer p); auto.
      * cbn in Hns. apply negb_false_iff in Hns.
        rewrite (timeout_dismiss_eq p Hk).
        apply labelAgrees_acknowledged; [|exact Hns].
        apply (labelAgrees_same_timer p); auto.
    + rewrite (timeout_not_pending k p Hk). exact HL.
  - rewrite unload_eq. apply labelAgrees_idle; [reflexivity | |];
      cbn; assumption.
  - rewrite leaf_change_eq. apply (labelAgrees_same_timer p); auto.
  - rewrite document_click_eq.
    destruct (isPanelPinned (owner p) && outside); [|exact HL].
    apply (labelAgrees_same_timer p); auto.
Qed.

Lemma labelAgrees_onload cfg : labelAgrees (onload cfg).
Proof. apply labelAgrees_idle; reflexivity. Qed.

Lemma run_keeps_label evs : forall p : Plugin.Plugin,
  labelAgrees p -> expiriesInTime evs p = true -> labelAgrees (run evs p).
Proof.
  induction evs as [|ev evs IH]; intros p HL Hin; [exact HL|].
  cbn [expiriesInTime] in Hin. apply andb_true_iff in Hin.
  destruct Hin as [Hev Hrest]. apply negb_true_iff in Hev.
  cbn [run fold_left]. apply IH; [now apply step_keeps_label | exact Hrest].
Qed.

(** X21: as long as no expiry timeout goes off stale, the cadence of long
    breaks is the one of the mode the timer ran.  Along every such run
    from the loaded plugin, the tick that ends a Work interval counts one
    more pomodoro and picks Long Break exactly when the new count is a
    multiple of the long-break interval, Short Break otherwise; the tick
    that ends a break picks Work and leaves the count. *)
Theorem cadence_while_expiries_are_in_time
    (cfg : PomodoroSettings) (evs : list Event) (h : positive) :
  expiriesInTime evs (onload cfg) = true ->
  let p := run evs (onload cfg) in
  In h (intervals (window p)) ->
  remainingTime (timer p) <= 1 ->
  let p' := step (IntervalFires h) p in
  let n := pomodoroCount p + 1 in
  (state (timer p) = Work ->
   pomodoroCount p' = n
   /\ nextMode (owner p') =
        (if remIsZero n (longBreakInterval (settings (timer p)))
         then LongBreak else ShortBreak))
  /\ (state (timer p) = ShortBreak \/ state (timer p) = LongBreak ->
      pomodoroCount p' = pomodoroCount p
      /\ nextMode (owner p') = Work).
Proof.
  intros Hin p Hh Hr p' n. subst p' n.
  assert (HL : labelAgrees p)
    by (apply run_keeps_label; [apply labelAgrees_onload | exact Hin]).
  destruct HL as (Ha & _).
  apply existsb_eqb_In in Hh.
  assert (Hz : (remainingTime (timer p) - 1 <=? 0) = true)
    by (apply Z.leb_le; lia).
  rewrite timer_fire_eq, Hh. cbn zeta. rewrite Hz, onTimerComplete_eq.
  unfold pomodoroCount, timerMode in *. cbn.
  split.
  - intros Hs. rewrite Hs in Ha. rewrite <- Ha by discriminate.
    split; reflexivity.
  - intros [Hs|Hs]; rewrite Hs in Ha; rewrite <- Ha by discriminate;
      split; reflexivity.
Qed.

Lemma cadence_while_expiries_are_in_time_witness :
  let evs := ClickTime :: repeat (IntervalFires 1%positive) 1499 in
  let p := run evs (onload DEFAULT_SETTINGS) in
  let p' := step (IntervalFires 1%positive) p in
  (state (timer p) = Work /\ remainingTime (timer p) = 1)
  /\ pomodoroCount p' = pomodoroCount p + 1
  /\ nextMode (owner p') =
       (if remIsZero (pomodoroCount p + 1)
             (longBreakInterval (settings (timer p)))
        then LongBreak else ShortBreak).
Proof.
  intros evs p p'.
  split; [split; vm_compute; reflexivity|].
  apply (cadence_while_expiries_are_in_time DEFAULT_SETTINGS evs 1%positive).
  - vm_compute. reflexivity.
  - vm_compute. left. reflexivity.
  - vm_compute. discriminate.
  - vm_compute. reflexivity.
Defined.
End PluginFurther.

(** * What the panel shows *)

Section DisplayFacts.

Import Display.

Example time_text_samples :
  timeText 1500 = "25:00"%string /\ timeText 1499 = "24:59"%string
  /\ timeText 65 = "01:05"%string /\ timeText 0 = "00:00"%string
  /\ timeText 6000 = "100:00"%string
  /\ getIdleTimeText DEFAULT_SETTINGS ShortBreak = "5:00"%string.
Proof. vm_compute. repeat split. Qed.

Local Abbreviation digits := DecimalString.NilEmpty.string_of_uint.

Lemma of_uint_leadingZeros k u : Z.of_uint (leadingZeros k u) = Z.of_uint u.
Proof. induction k as [|k IH]; [reflexivity | exact IH]. Qed.

(** A non-negative integer prints as its digits. *)
Lemma toString_nonneg z :
  0 <= z ->
  exists u, u <> Decimal.Nil /\ toString z = digits u /\ Z.of_uint u = z.
Proof.
  intros Hz. destruct z as [|p|p]; [| |lia].
  - exists (Decimal.D0 Decimal.Nil). repeat split. discriminate.
  - exists (Pos.to_uint p).
    pose proof (DecimalPos.Unsigned.to_uint_nonnil p) as Hn.
    repeat split; [assumption | |].
    + unfold toString. cbn. destruct (Pos.to_uint p); [contradiction|..];
        reflexivity.
    + exact (DecimalZ.of_to (Z.pos p)).
Qed.

Lemma length_fill c k s :
  String.length (fill c k ++ s) = (k + String.length s)%nat.
Proof. induction k as [|k IH]; cbn; [reflexivity | now rewrite IH]. Qed.

Lemma length_digits_pos u : u <> Decimal.Nil -> (1 <= String.length (digits u))%nat.
Proof. destruct u; [contradiction|..]; cbn; lia. Qed.

(** Digits hold no colon: the text splits where it was put together. *)
Lemma split_digits u b :
  splitAtColon (digits u ++ String ":" b) = Some (digits u, b).
Proof. induction u; cbn; rewrite ?IHu; reflexivity. Qed.

Lemma split_padded k u b :
  splitAtColon ((fill "0" k ++ digits u) ++ String ":" b)
  = Some ((fill "0" k ++ digits u)%string, b).
Proof.
  induction k as [|k IH]; cbn; [apply split_digits | now rewrite IH].
Qed.

Lemma read_padded k u :
  u <> Decimal.Nil ->
  DecimalString.NilZero.uint_of_string (fill "0" k ++ digits u)
  = Some (leadingZeros k u).
Proof.
  intros Hu.
  assert (H : DecimalString.NilEmpty.uint_of_string (fill "0" k ++ digits u)
              = Some (leadingZeros k u)).
  { induction k as [|k IH]; cbn.
    - apply DecimalString.NilEmpty.usu.
    - rewrite IH. reflexivity. }
  destruct (fill "0" k ++ digits u)%string eqn:E; [|exact H].
  exfalso. apply (f_equal String.length) in E. rewrite length_fill in E.
  pose proof (length_digits_pos u Hu). cbn in E. lia.
Qed.

(** The text as it is put together, with the numbers it stands for. *)
Lemma timeText_parts r :
  0 <= r ->
  exists um us,
    um <> Decimal.Nil /\ us <> Decimal.Nil
    /\ Z.of_uint um = r / 60 /\ Z.of_uint us = r mod 60
    /\ toString (r / 60) = digits um /\ toString (r mod 60) = digits us
    /\ timeText r =
       ((fill "0" (2 - String.length (digits um)) ++ digits um)
        ++ String ":" (fill "0" (2 - String.length (digits us))
                       ++ digits us))%string.
Proof.
  intros Hr.
  assert (Hrem : Z.rem r 60 = r mod 60) by (apply Z.rem_mod_nonneg; lia).
  destruct (toString_nonneg (r / 60)) as (um & Hum & Em & Vm);
    [apply Z.div_pos; lia|].
  destruct (toString_nonneg (r mod 60)) as (us & Hus & Es & Vs);
    [apply Z.mod_pos_bound; lia|].
  exists um, us. repeat split; try assumption.
  unfold timeText, padStart. rewrite Hrem, Em, Es. reflexivity.
Qed.

Lemma timeText_reads_back r : 0 <= r -> readTime (timeText r) = Some r.
Proof.
  intros Hr.
  destruct (timeText_parts r Hr) as (um & us & Hum & Hus & Vm & Vs & _ & _ & E).
  unfold readTime. rewrite E, split_padded.
  rewrite (read_padded _ um Hum), (read_padded _ us Hus).
  rewrite !of_uint_leadingZeros, Vm, Vs. f_equal.
  pose proof (Z.div_mod r 60). lia.
Qed.

(** Numbers below a hundred print in at most two characters. *)
Lemma short_numbers z :
  0 <= z < 100 -> (String.length (toString z) <= 2)%nat.
Proof.
  intros Hz.
  assert (Hall : forallb (fun n => (String.length (toString (Z.of_nat n)) <=? 2)%nat)
                         (seq 0 100) = true) by (vm_compute; reflexivity).
  rewrite forallb_forall in Hall.
  specialize (Hall (Z.to_nat z)). rewrite Z2Nat.id in Hall by lia.
  apply Nat.leb_le, Hall, in_seq. lia.
Qed.

(** X17: the time on the panel reads back.  For every non-negative
    number of seconds the text is minutes, a colon and seconds, the
    seconds always in exactly two characters and the minutes in at least
    two (five characters in all below a hundred minutes); reading the
    digits back gives the seconds it was made from, so two different
    remaining times are never shown alike. *)
Theorem displayed_time_reads_back (r : Z) :
  0 <= r ->
  readTime (timeText r) = Some r
  /\ (exists m s, splitAtColon (timeText r) = Some (m, s)
                  /\ timeText r = (m ++ ":" ++ s)%string
                  /\ String.length s = 2%nat
                  /\ (2 <= String.length m)%nat
                  /\ (r < 6000 -> String.length m = 2%nat))
  /\ (forall r', 0 <= r' -> timeText r' = timeText r -> r' = r).
Proof.
  intros Hr. split; [now apply timeText_reads_back|]. split.
  - destruct (timeText_parts r Hr)
      as (um & us & Hum & Hus & Vm & Vs & Em & Es & E).
    exists (fill "0" (2 - String.length (digits um)) ++ digits um)%string,
           (fill "0" (2 - String.length (digits us)) ++ digits us)%string.
    pose proof (length_digits_pos um Hum) as Hm1.
    pose proof (length_digits_pos us Hus) as Hs1.
    assert (Hs2 : (String.length (digits us) <= 2)%nat).
    { rewrite <- Es. apply short_numbers.
      pose proof (Z.mod_pos_bound r 60). lia. }
    rewrite E. split; [apply split_padded|]. split; [reflexivity|].
    rewrite !length_fill. repeat split; try lia.
    intros Hlt.
    assert (Hm2 : (String.length (digits um) <= 2)%nat).
    { rewrite <- Em. apply short_numbers. split; [apply Z.div_pos; lia|].
      apply Z.div_lt_upper_bound; lia. }
    lia.
  - intros r' Hr' E. pose proof (timeText_reads_back r' Hr') as H'.
    rewrite E, (timeText_reads_back r Hr) in H'. congruence.
Qed.

Lemma displayed_time_reads_back_witness :
  readTime (timeText 1499) = Some 1499
  /\ (exists m s, splitAtColon (timeText 1499) = Some (m, s)
                  /\ timeText 1499 = (m ++ ":" ++ s)%string
                  /\ String.length s = 2%nat
                  /\ (2 <= String.length m)%nat
                  /\ (1499 < 6000 -> String.length m = 2%nat))
  /\ (forall r', 0 <= r' -> timeText r' = timeText 1499 -> r' = 1499).
Proof. apply (displayed_time_reads_back 1499). lia. Defined.

Lemma idle_text_reads_back cfg m :
  0 <= minutesOf cfg m ->
  readTime (getIdleTimeText cfg m) = Some (minutesOf cfg m * 60).
Proof.
  intros Hm.
  destruct (toString_nonneg _ Hm) as (u & Hu & E & V).
  unfold readTime, getIdleTimeText. rewrite E.
  change (digits u ++ ":00")%string
    with ((fill "0" 0 ++ digits u) ++ String ":" "00")%string.
  rewrite split_padded, (read_padded 0 u Hu). cbn. rewrite V. f_equal. lia.
Qed.

(** X20: what the idle panel promises is what play delivers.  While the
    timer is idle the panel shows the configured minutes of the mode
    followed by ":00"; read back, that is exactly the remaining time
    [start] loads for that mode, and it is what the panel reads once the
    timer runs. *)
Theorem idle_panel_shows_the_duration (e : Recorded.Engine) (m : TimerState)
    (shown : Z) :
  Recorded.Reachable Recorded.anySettings e ->
  Timer.state (Timer.timer e) = Idle ->
  isMode m = true ->
  0 <= minutesOf (Timer.settings (Timer.timer e)) m ->
  let cfg := Timer.settings (Timer.timer e) in
  let e' := Recorded.exec (Recorded.Start m) e in
  readTime (panelTimeText (Timer.state (Timer.timer e)) cfg m shown)
  = Some (Timer.remainingTime (Timer.timer e'))
  /\ readTime (panelTimeText (Timer.state (Timer.timer e')) cfg m
                 (Timer.remainingTime (Timer.timer e')))
     = Some (Timer.remainingTime (Timer.timer e')).
Proof.
  intros Hr Hi Hm Hd cfg e'. subst cfg e'.
  rewrite (fresh_start _ e m Hr Hi Hm). cbn. rewrite Hi.
  unfold panelTimeText. cbn. split.
  - now apply idle_text_reads_back.
  - destruct m; try discriminate; cbn; apply timeText_reads_back; cbn in Hd; lia.
Qed.

Lemma idle_panel_shows_the_duration_witness :
  let e := Recorded.boot DEFAULT_SETTINGS in
  let cfg := Timer.settings (Timer.timer e) in
  let e' := Recorded.exec (Recorded.Start LongBreak) e in
  readTime (panelTimeText (Timer.state (Timer.timer e)) cfg LongBreak 0)
  = Some (Timer.remainingTime (Timer.timer e'))
  /\ readTime (panelTimeText (Timer.state (Timer.timer e')) cfg LongBreak
                 (Timer.remainingTime (Timer.timer e')))
     = Some (Timer.remainingTime (Timer.timer e')).
Proof.
  apply (idle_panel_shows_the_duration
           (Recorded.boot DEFAULT_SETTINGS) LongBreak 0).
  - apply Recorded.reach_boot. exact I.
  - reflexivity.
  - reflexivity.
  - vm_compute. discriminate.
Defined.

End DisplayFacts.
